(** * RoraOS chat relay: Express proxy and streaming clients

    A shallow embedding of the JavaScript sources
    - [servers/express_server.js]  ([getApiKey], [POST /api/chat],
      [POST /api/chat/stream]),
    - [basic/regular_api.js]       ([chatCompletionStream]),
    - [basic/agent_api.js]         ([agentChatStream]),
    - [frontend/react_useChat.tsx] ([sendStreamingRequest]),
    followed by the properties of the relay that hold of them. *)

From Stdlib Require Import String Ascii List ZArith Bool Lia.
From stdpp Require Import base option gmap.
From stdpp Require strings.
Import ListNotations.
Local Open Scope string_scope.
Local Open Scope list_scope.
#[local] Arguments String.append !_ _ / : simpl nomatch.

(* ================================================================== *)
(** ** JavaScript values *)
(* ================================================================== *)

(** A JSON value as [JSON.parse] and [express.json()] deliver it.  A number
    [JNum m e] stands for [m * 10^e]; the code below observes numbers only
    through their truthiness.  An object keeps its properties as an
    association list read from the front. *)
#[local] Unset Elimination Schemes.
Inductive json : Type :=
| JNull
| JBool (b : bool)
| JNum (m e : Z)
| JStr (s : string)
| JArr (items : list json)
| JObj (fields : list (string * json)).
#[local] Set Elimination Schemes.

(** A JavaScript value is a JSON value or [undefined] (= [None]). *)
Abbreviation jsval := (option json).

(** What a [throw] carries. *)
Inductive js_error : Type :=
| TypeError
| SyntaxError
| ApiError (message : jsval)
| HttpError (status : Z)
| NetworkError.

(** Completion of a JavaScript computation: a value, or an exception. *)
Inductive completion (A : Type) : Type :=
| Normal (a : A)
| Throw (e : js_error).
Arguments Normal {A} a.
Arguments Throw {A} e.

Definition bind {A B} (c : completion A) (k : A -> completion B) : completion B :=
  match c with
  | Normal a => k a
  | Throw e => Throw e
  end.

Notation "x <- c ;; k" := (bind c (fun x => k))
  (at level 100, c at next level, right associativity).

(** ToBoolean. *)
Definition truthy (v : jsval) : bool :=
  match v with
  | None => false
  | Some JNull => false
  | Some (JBool b) => b
  | Some (JNum m _) => negb (m =? 0)%Z
  | Some (JStr s) => negb (s =? "")
  | Some (JArr _) => true
  | Some (JObj _) => true
  end.

(** Whether the string conversion of a value succeeds ([String(v)], and
    [s + v] for a string [s]).  For what JSON can hold it fails on an
    object with a property [toString] of its own, which is never a
    function and hides the inherited one, and on an array with such an
    element, which [join] converts in turn. *)
Fixpoint converts (v : json) : bool :=
  match v with
  | JArr items => forallb converts items
  | JObj fields =>
      negb (existsb (fun field => fst field =? "toString") fields)
  | _ => true
  end.

(** [a || b]. *)
Definition js_or (a b : jsval) : jsval := if truthy a then a else b.

(** [Array.isArray(v)]. *)
Definition isArray (v : jsval) : bool :=
  match v with
  | Some (JArr _) => true
  | _ => false
  end.

Fixpoint assoc (key : string) (fields : list (string * json)) : jsval :=
  match fields with
  | [] => None
  | (k, v) :: rest => if k =? key then Some v else assoc key rest
  end.

(** [v.name] for the property names the sources read ([content], [choices],
    [delta], [message], [model], [usage], [error]): none of them lives on a
    prototype, so only an object can carry one; reading a property of
    [undefined] or [null] throws. *)
Definition get_prop (v : jsval) (name : string) : completion jsval :=
  match v with
  | None => Throw TypeError
  | Some JNull => Throw TypeError
  | Some (JObj fields) => Normal (assoc name fields)
  | Some _ => Normal None
  end.

(** [v[0]]: first element of an array, property ["0"] of an object, first
    character of a string. *)
Definition get_index0 (v : jsval) : completion jsval :=
  match v with
  | None => Throw TypeError
  | Some JNull => Throw TypeError
  | Some (JArr items) => Normal (head items)
  | Some (JObj fields) => Normal (assoc "0" fields)
  | Some (JStr (String c _)) => Normal (Some (JStr (String c "")))
  | Some _ => Normal None
  end.

Definition nullish (v : jsval) : bool :=
  match v with
  | None => true
  | Some JNull => true
  | Some _ => false
  end.

(** [v?.name] and [v?.[0]]: short-circuit to [undefined] on a nullish [v]. *)
Definition opt_prop (v : jsval) (name : string) : jsval :=
  if nullish v then None
  else match get_prop v name with Normal r => r | Throw _ => None end.

Definition opt_index0 (v : jsval) : jsval :=
  if nullish v then None
  else match get_index0 v with Normal r => r | Throw _ => None end.

(* ================================================================== *)
(** ** Strings *)
(* ================================================================== *)

Definition LF : ascii := "010"%char.

(** [s.split("\n")]: always at least one piece. *)
Fixpoint split (s : string) : list string :=
  match s with
  | "" => [""]
  | String c rest =>
      if Ascii.eqb c LF then "" :: split rest
      else match split rest with
           | piece :: pieces => String c piece :: pieces
           | [] => [String c ""]
           end
  end.

(** Concatenation of pieces in order. *)
Definition join (pieces : list string) : string :=
  fold_right String.append "" pieces.

(** [s.startsWith(p)]. *)
Fixpoint startsWith (s p : string) {struct p} : bool :=
  match p, s with
  | "", _ => true
  | String a p', String b s' => Ascii.eqb a b && startsWith s' p'
  | String _ _, "" => false
  end.

(** [s.slice(n)] for a count [n]: the string without its first [n]
    characters, empty when it has no more than [n]. *)
Fixpoint slice (n : nat) (s : string) : string :=
  match n, s with
  | O, _ => s
  | S n', String _ rest => slice n' rest
  | S _, "" => ""
  end.

(* ================================================================== *)
(** ** [TextDecoder] *)
(* ================================================================== *)

(** A text is kept as its UTF-8 bytes.  [new TextDecoder().decode(value)]
    decodes the bytes of one read by themselves: a byte-order mark at
    their start is dropped, and every ill-formed or unfinished sequence
    becomes U+FFFD (the WHATWG UTF-8 decoder). *)
Definition byte_value (c : ascii) : Z := Z.of_N (N_of_ascii c).

Definition BOM : string := String "239" (String "187" (String "191" "")).
Definition REPLACEMENT : string := String "239" (String "191" (String "189" "")).

(** The bounds of the next continuation byte. *)
Inductive tail_range : Type := Tail80_BF | TailA0_BF | Tail80_9F | Tail90_BF | Tail80_8F.

Definition in_range (r : tail_range) (b : Z) : bool :=
  match r with
  | Tail80_BF => (128 <=? b)%Z && (b <=? 191)%Z
  | TailA0_BF => (160 <=? b)%Z && (b <=? 191)%Z
  | Tail80_9F => (128 <=? b)%Z && (b <=? 159)%Z
  | Tail90_BF => (144 <=? b)%Z && (b <=? 191)%Z
  | Tail80_8F => (128 <=? b)%Z && (b <=? 143)%Z
  end.

(** Between characters, or inside one: the continuation bytes still
    needed after the next, the bounds of the next, the bytes held. *)
Inductive utf8_state : Type :=
| Idle
| Within (more : nat) (range : tail_range) (held : string).

Definition utf8_start (c : ascii) : string * utf8_state :=
  let b := byte_value c in
  if (b <? 128)%Z then (String c "", Idle)
  else if (194 <=? b)%Z && (b <=? 223)%Z then ("", Within 0 Tail80_BF (String c ""))
  else if (b =? 224)%Z then ("", Within 1 TailA0_BF (String c ""))
  else if (b =? 237)%Z then ("", Within 1 Tail80_9F (String c ""))
  else if (225 <=? b)%Z && (b <=? 239)%Z then ("", Within 1 Tail80_BF (String c ""))
  else if (b =? 240)%Z then ("", Within 2 Tail90_BF (String c ""))
  else if (b =? 244)%Z then ("", Within 2 Tail80_8F (String c ""))
  else if (241 <=? b)%Z && (b <=? 243)%Z then ("", Within 2 Tail80_BF (String c ""))
  else (REPLACEMENT, Idle).

Definition utf8_step (st : utf8_state) (c : ascii) : string * utf8_state :=
  match st with
  | Idle => utf8_start c
  | Within more range held =>
      if in_range range (byte_value c) then
        match more with
        | O => ((held ++ String c "")%string, Idle)
        | S more' => ("", Within more' Tail80_BF (held ++ String c "")%string)
        end
      else
        let '(out, st') := utf8_start c in ((REPLACEMENT ++ out)%string, st')
  end.

Fixpoint utf8_run (st : utf8_state) (bytes : string) : string :=
  match bytes with
  | "" => match st with Idle => "" | Within _ _ _ => REPLACEMENT end
  | String c rest =>
      let '(out, st') := utf8_step st c in (out ++ utf8_run st' rest)%string
  end.

(** [decoder.decode(value)]. *)
Definition decode (value : string) : string :=
  utf8_run Idle (if startsWith value BOM then slice 3 value else value).

(* ================================================================== *)
(** ** Streaming clients: the frame decoders *)
(* ================================================================== *)

(** The outcome of [await fetch(API_URL, ...)] once it has resolved:
    [ok] and [status] of the response, what [response.json()] resolves to,
    whether it has a body at all ([response.body] is [null] without one),
    and the body as the decoder sees it: [body] lists the texts that
    [decoder.decode] gives for the values of the successive
    [reader.read()] calls ([decode] above, applied to each value by
    itself), after which the reader reports [done], or rejects when
    [body_fails]. *)
Record fetch_response : Type := {
  ok : bool;
  status : Z;
  response_json : completion json;
  has_body : bool;
  body : list string;
  body_fails : bool
}.

(** [while (true) { const {done, value} = await reader.read();
                    if (done) break; ...chunk... }]
    over state [S]; the second component counts the [reader.read()] calls. *)
Fixpoint read_loop {S : Type} (on_chunk : string -> S -> S)
    (chunks : list string) (fails : bool) (st : S) (reads : nat)
  : completion (S * nat) :=
  match chunks with
  | [] => if fails then Throw NetworkError else Normal (st, Datatypes.S reads)
  | chunk :: later =>
      read_loop on_chunk later fails (on_chunk chunk st) (Datatypes.S reads)
  end.

(** [line.startsWith("data: ")] then [line.slice(6)]. *)
Definition data_of (line : string) : option string :=
  if startsWith line "data: " then Some (slice 6 line) else None.

Section Decoders.

(** [JSON.parse]: the parsed value, or [Throw SyntaxError]. *)
Variable JSON_parse : string -> completion json.

(** *** basic/regular_api.js *)

(** [fullContent] is kept as the list of values appended to it by
    [fullContent += content] (its text is the concatenation of their
    string conversions); [stdout] lists the [process.stdout.write] and
    [console.log] outputs. *)
Record cli_state : Type := {
  fullContent : list json;
  stdout : list string
}.

(** [parsed.content || parsed.choices?.[0]?.delta?.content || ""]. *)
Definition regular_content (parsed : json) : completion jsval :=
  top <- get_prop (Some parsed) "content" ;;
  if truthy top then Normal top
  else
    choices <- get_prop (Some parsed) "choices" ;;
    let nested := opt_prop (opt_prop (opt_index0 choices) "delta") "content" in
    Normal (js_or (js_or top nested) (Some (JStr ""))).

(** [process.stdout.write(content)]: a string is written, anything else
    that JSON can hold is refused with a [TypeError]. *)
Definition stdout_write (content : jsval) (st : cli_state) : cli_state * completion unit :=
  match content with
  | Some (JStr s) =>
      ({| fullContent := fullContent st; stdout := stdout st ++ [s] |}, Normal tt)
  | _ => (st, Throw TypeError)
  end.

(** [fullContent += content]: the value is appended when its string
    conversion succeeds; when it throws, nothing is appended. *)
Definition append_content (content : jsval) (st : cli_state) : completion cli_state :=
  match content with
  | Some c =>
      if converts c
      then Normal {| fullContent := fullContent st ++ [c]; stdout := stdout st |}
      else Throw TypeError
  | None => Normal st
  end.

(** The body of the [try] block of [chatCompletionStream]. *)
Definition regular_try (data : string) (st : cli_state) : cli_state * completion unit :=
  match JSON_parse data with
  | Throw e => (st, Throw e)
  | Normal parsed =>
      match regular_content parsed with
      | Throw e => (st, Throw e)
      | Normal content =>
          if truthy content then
            match append_content content st with
            | Normal appended => stdout_write content appended
            | Throw e => (st, Throw e)
            end
          else (st, Normal tt)
      end
  end.

(** [try { ... } catch { /* Skip invalid JSON */ }]. *)
Definition try_catch {S : Type} (block : S -> S * completion unit) (st : S) : S :=
  fst (block st).

(** [for (const line of lines) { ... if (data === "[DONE]") break; ... }]. *)
Fixpoint regular_lines (lines : list string) (st : cli_state) : cli_state :=
  match lines with
  | [] => st
  | line :: rest =>
      match data_of line with
      | Some data =>
          if data =? "[DONE]" then st
          else regular_lines rest (try_catch (regular_try data) st)
      | None => regular_lines rest st
      end
  end.

(** One turn of the read loop from [chunk = decoder.decode(value)] on:
    [chunk.split("\n")] and the loop over the lines. *)
Definition regular_chunk (chunk : string) (st : cli_state) : cli_state :=
  regular_lines (split chunk) st.

(** [throw new Error(error.error || "API request failed")]. *)
Definition api_failure (r : fetch_response) : js_error + js_error :=
  match response_json r with
  | Throw e => inl e
  | Normal error =>
      match get_prop (Some error) "error" with
      | Throw e => inl e
      | Normal msg => inr (ApiError (js_or msg (Some (JStr "API request failed"))))
      end
  end.

Definition raise {A} (e : js_error + js_error) : completion A :=
  match e with inl e' => Throw e' | inr e' => Throw e' end.

(** What a run of a command-line decoder leaves behind. *)
Record cli_run : Type := {
  returned : list json;
  printed : list string;
  reads : nat
}.

Definition cli_finish (r : cli_state * nat) : cli_run :=
  {| returned := fullContent (fst r);
     printed := stdout (fst r) ++ [String LF ""];
     reads := snd r |}.

Definition cli_start : cli_state := {| fullContent := []; stdout := [] |}.

(** [chatCompletionStream(payload)], from the resolved [fetch] on;
    [response.body.getReader()] throws when the response has no body. *)
Definition chatCompletionStream (response : fetch_response) : completion cli_run :=
  if negb (ok response) then raise (api_failure response)
  else if negb (has_body response) then Throw TypeError
  else
    r <- read_loop regular_chunk (body response) (body_fails response) cli_start 0 ;;
    Normal (cli_finish r).

(** *** basic/agent_api.js *)

(** [parsed.content || ""]. *)
Definition agent_content (parsed : json) : completion jsval :=
  top <- get_prop (Some parsed) "content" ;;
  Normal (js_or top (Some (JStr ""))).

Definition agent_try (data : string) (st : cli_state) : cli_state * completion unit :=
  match JSON_parse data with
  | Throw e => (st, Throw e)
  | Normal parsed =>
      match agent_content parsed with
      | Throw e => (st, Throw e)
      | Normal content =>
          if truthy content then
            match append_content content st with
            | Normal appended => stdout_write content appended
            | Throw e => (st, Throw e)
            end
          else (st, Normal tt)
      end
  end.

Fixpoint agent_lines (lines : list string) (st : cli_state) : cli_state :=
  match lines with
  | [] => st
  | line :: rest =>
      match data_of line with
      | Some data =>
          if data =? "[DONE]" then st
          else agent_lines rest (try_catch (agent_try data) st)
      | None => agent_lines rest st
      end
  end.

Definition agent_chunk (chunk : string) (st : cli_state) : cli_state :=
  agent_lines (split chunk) st.

(** [agentChatStream(payload)], from the resolved [fetch] on. *)
Definition agentChatStream (response : fetch_response) : completion cli_run :=
  if negb (ok response) then raise (api_failure response)
  else if negb (has_body response) then Throw TypeError
  else
    r <- read_loop agent_chunk (body response) (body_fails response) cli_start 0 ;;
    Normal (cli_finish r).

(** *** frontend/react_useChat.tsx *)

(** [fullContent] as above; [queued] counts the updaters handed to
    [setMessages] after an append.  An updater reads [fullContent] when
    React runs it, not when it is queued: it puts the content accumulated
    by then into the last (assistant) message. *)
Record hook_state : Type := {
  hook_content : list json;
  queued : nat
}.

Definition hook_try (data : string) (st : hook_state) : hook_state * completion unit :=
  match JSON_parse data with
  | Throw e => (st, Throw e)
  | Normal parsed =>
      match regular_content parsed with
      | Throw e => (st, Throw e)
      | Normal content =>
          if truthy content then
            match content with
            | Some c =>
                if converts c then
                  ({| hook_content := hook_content st ++ [c]; queued := S (queued st) |},
                   Normal tt)
                else (st, Throw TypeError)
            | None => (st, Normal tt)
            end
          else (st, Normal tt)
      end
  end.

(** [for (const line of lines) { ... if (data === '[DONE]') continue; ... }]. *)
Fixpoint hook_lines (lines : list string) (st : hook_state) : hook_state :=
  match lines with
  | [] => st
  | line :: rest =>
      match data_of line with
      | Some data =>
          if data =? "[DONE]" then hook_lines rest st
          else hook_lines rest (try_catch (hook_try data) st)
      | None => hook_lines rest st
      end
  end.

Definition hook_chunk (chunk : string) (st : hook_state) : hook_state :=
  hook_lines (split chunk) st.

(** [const errorData = await response.json().catch(() => ({}));
     throw new Error(errorData.error || `HTTP error ${response.status}`)]. *)
Definition hook_failure (r : fetch_response) : js_error :=
  let errorData := match response_json r with
                   | Normal j => j
                   | Throw _ => JObj []
                   end in
  match get_prop (Some errorData) "error" with
  | Throw e => e
  | Normal msg => if truthy msg then ApiError msg else HttpError (status r)
  end.

Record hook_run : Type := {
  final_message : list json;
  updates : nat;
  hook_reads : nat
}.

(** [sendStreamingRequest(apiMessages)], from the resolved [fetch] on. *)
Definition sendStreamingRequest (response : fetch_response) : completion hook_run :=
  if negb (ok response) then Throw (hook_failure response)
  else if negb (has_body response) then Throw (ApiError (Some (JStr "No response body")))
  else
    r <- read_loop hook_chunk (body response) (body_fails response)
           {| hook_content := []; queued := 0 |} 0 ;;
    Normal {| final_message := hook_content (fst r);
              updates := queued (fst r);
              hook_reads := snd r |}.

End Decoders.

(* ================================================================== *)
(** ** A reference [JSON.parse] *)
(* ================================================================== *)

(** [JSON.parse] belongs to the JavaScript runtime, so the decoders above
    take it as a parameter and the general theorems hold for any parser.
    [json_parse] is an executable instance following the JSON grammar
    (ECMA-404), used to run the decoders on concrete streams.  A number
    literal is kept by its decimal value, rounded to zero where a double
    underflows; an escape [\uXXXX] is stored as the UTF-8 bytes of that
    code unit. *)
Module RefParser.

Definition DQ : ascii := "034".

Definition is_ws (c : ascii) : bool :=
  Ascii.eqb c " " || Ascii.eqb c "009" || Ascii.eqb c "010" || Ascii.eqb c "013".

Fixpoint skip_ws (s : string) : string :=
  match s with
  | String c rest => if is_ws c then skip_ws rest else s
  | "" => ""
  end.

Definition code (c : ascii) : Z := Z.of_N (N_of_ascii c).

Definition digit_of (c : ascii) : option Z :=
  let n := code c in
  if (48 <=? n)%Z && (n <=? 57)%Z then Some (n - 48)%Z else None.

Definition hex_of (c : ascii) : option Z :=
  let n := code c in
  if (48 <=? n)%Z && (n <=? 57)%Z then Some (n - 48)%Z
  else if (65 <=? n)%Z && (n <=? 70)%Z then Some (n - 55)%Z
  else if (97 <=? n)%Z && (n <=? 102)%Z then Some (n - 87)%Z
  else None.

(** Longest run of digits: its value after [acc], its length, the rest. *)
Fixpoint digits (s : string) (acc len : Z) : Z * Z * string :=
  match s with
  | String c rest =>
      match digit_of c with
      | Some d => digits rest (acc * 10 + d)%Z (len + 1)%Z
      | None => (acc, len, s)
      end
  | "" => (acc, len, s)
  end.

Definition byte (n : Z) : ascii := ascii_of_N (Z.to_N n).

Definition utf8 (u : Z) : string :=
  if (u <? 128)%Z then String (byte u) ""
  else if (u <? 2048)%Z then
    String (byte (192 + u / 64)) (String (byte (128 + u mod 64)) "")
  else
    String (byte (224 + u / 4096))
      (String (byte (128 + (u / 64) mod 64)) (String (byte (128 + u mod 64)) "")).

Definition hex4 (s : string) : option (Z * string) :=
  match s with
  | String a (String b (String c (String d rest))) =>
      match hex_of a, hex_of b, hex_of c, hex_of d with
      | Some x, Some y, Some z, Some w =>
          Some ((((x * 16 + y) * 16 + z) * 16 + w)%Z, rest)
      | _, _, _, _ => None
      end
  | _ => None
  end.

(** The characters of a string literal after its opening quote. *)
Fixpoint chars (fuel : nat) (s : string) : option (string * string) :=
  match fuel with
  | O => None
  | S fuel' =>
      match s with
      | "" => None
      | String c rest =>
          if Ascii.eqb c DQ then Some ("", rest)
          else if Ascii.eqb c "\" then
            match rest with
            | String e rest' =>
                let simple (t : string) :=
                  match chars fuel' rest' with
                  | Some (body, after) => Some ((t ++ body)%string, after)
                  | None => None
                  end in
                if Ascii.eqb e DQ then simple (String DQ "")
                else if Ascii.eqb e "\" then simple "\"
                else if Ascii.eqb e "/" then simple "/"
                else if Ascii.eqb e "b" then simple (String "008" "")
                else if Ascii.eqb e "f" then simple (String "012" "")
                else if Ascii.eqb e "n" then simple (String "010" "")
                else if Ascii.eqb e "r" then simple (String "013" "")
                else if Ascii.eqb e "t" then simple (String "009" "")
                else if Ascii.eqb e "u" then
                  match hex4 rest' with
                  | Some (u, rest'') =>
                      match chars fuel' rest'' with
                      | Some (body, after) => Some ((utf8 u ++ body)%string, after)
                      | None => None
                      end
                  | None => None
                  end
                else None
            | "" => None
            end
          else if (code c <? 32)%Z then None
          else
            match chars fuel' rest with
            | Some (body, after) => Some (String c body, after)
            | None => None
            end
      end
  end.

(** Whether [m * 10^e] rounds to zero as a double (at most [2^-1075]). *)
Definition underflows (m e : Z) : bool :=
  (e <? 0)%Z && (Z.abs m * 2 ^ 1075 <=? 10 ^ (- e))%Z.

Definition number (s : string) : option (json * string) :=
  let '(neg, s1) :=
    match s with
    | String "-" rest => (true, rest)
    | _ => (false, s)
    end in
  let int_part :=
    match s1 with
    | String "0" rest => Some (0%Z, rest)
    | String c _ =>
        match digit_of c with
        | Some _ => let '(v, _, rest) := digits s1 0 0 in Some (v, rest)
        | None => None
        end
    | "" => None
    end in
  match int_part with
  | None => None
  | Some (i, s2) =>
      let frac_part :=
        match s2 with
        | String "." rest =>
            let '(v, len, rest') := digits rest i 0 in
            if (len =? 0)%Z then None else Some (v, len, rest')
        | _ => Some (i, 0%Z, s2)
        end in
      match frac_part with
      | None => None
      | Some (m, flen, s3) =>
          let exp_part :=
            match s3 with
            | String c rest =>
                if Ascii.eqb c "e" || Ascii.eqb c "E" then
                  let '(eneg, rest1) :=
                    match rest with
                    | String "-" r => (true, r)
                    | String "+" r => (false, r)
                    | _ => (false, rest)
                    end in
                  let '(v, len, rest2) := digits rest1 0 0 in
                  if (len =? 0)%Z then None
                  else Some ((if eneg then - v else v)%Z, rest2)
                else Some (0%Z, s3)
            | "" => Some (0%Z, s3)
            end in
          match exp_part with
          | None => None
          | Some (x, s4) =>
              let e := (x - flen)%Z in
              if (m =? 0)%Z || underflows m e then Some (JNum 0 0, s4)
              else Some (JNum (if neg then - m else m) e, s4)
          end
      end
  end.

(** A later duplicate of a key replaces the earlier value. *)
Fixpoint set_field (k : string) (v : json) (fields : list (string * json))
  : list (string * json) :=
  match fields with
  | [] => [(k, v)]
  | (k', v') :: rest =>
      if k' =? k then (k, v) :: rest else (k', v') :: set_field k v rest
  end.

Section Composite.
Variable value : string -> option (json * string).

(** The elements of an array after its opening bracket (non-empty case). *)
Fixpoint elements (fuel : nat) (s : string) (acc : list json)
  : option (json * string) :=
  match fuel with
  | O => None
  | S fuel' =>
      match value s with
      | Some (v, rest) =>
          match skip_ws rest with
          | String "," rest' => elements fuel' rest' (acc ++ [v])
          | String "]" rest' => Some (JArr (acc ++ [v]), rest')
          | _ => None
          end
      | None => None
      end
  end.

(** The members of an object after its opening brace (non-empty case). *)
Fixpoint members (fuel : nat) (s : string) (acc : list (string * json))
  : option (json * string) :=
  match fuel with
  | O => None
  | S fuel' =>
      match skip_ws s with
      | String q rest =>
          if negb (Ascii.eqb q DQ) then None else
          match chars (String.length rest) rest with
          | Some (k, rest1) =>
              match skip_ws rest1 with
              | String ":" rest2 =>
                  match value rest2 with
                  | Some (v, rest3) =>
                      match skip_ws rest3 with
                      | String "," rest4 => members fuel' rest4 (set_field k v acc)
                      | String "}" rest4 => Some (JObj (set_field k v acc), rest4)
                      | _ => None
                      end
                  | None => None
                  end
              | _ => None
              end
          | None => None
          end
      | "" => None
      end
  end.

End Composite.

Fixpoint value (fuel : nat) (s : string) : option (json * string) :=
  match fuel with
  | O => None
  | S fuel' =>
      let s' := skip_ws s in
      match s' with
      | "" => None
      | String c rest =>
          if Ascii.eqb c "{" then
            match skip_ws rest with
            | String "}" rest' => Some (JObj [], rest')
            | _ => members (value fuel') (String.length rest) rest []
            end
          else if Ascii.eqb c "[" then
            match skip_ws rest with
            | String "]" rest' => Some (JArr [], rest')
            | _ => elements (value fuel') (String.length rest) rest []
            end
          else if Ascii.eqb c DQ then
            match chars (String.length rest) rest with
            | Some (str, rest') => Some (JStr str, rest')
            | None => None
            end
          else if startsWith s' "true" then Some (JBool true, slice 4 s')
          else if startsWith s' "false" then Some (JBool false, slice 5 s')
          else if startsWith s' "null" then Some (JNull, slice 4 s')
          else number s'
      end
  end.

Definition json_parse (text : string) : completion json :=
  match value (S (String.length text)) text with
  | Some (v, rest) =>
      match skip_ws rest with
      | "" => Normal v
      | _ => Throw SyntaxError
      end
  | None => Throw SyntaxError
  end.

End RefParser.

Definition json_parse := RefParser.json_parse.

(** Concrete streams are written with ['] where the wire has a double
    quote. *)
Fixpoint wire (s : string) : string :=
  match s with
  | String c rest => String (if Ascii.eqb c "'" then RefParser.DQ else c) (wire rest)
  | "" => ""
  end.


(* ================================================================== *)
(** ** servers/express_server.js *)
(* ================================================================== *)

(** An incoming request: its headers (lower-cased names, as Node keeps
    them) and [req.body] as [express.json()] left it: the parsed JSON
    value, or [undefined] when the request carried no JSON body. *)
Record request : Type := {
  headers : gmap string string;
  json_body : jsval
}.

(** The properties that destructuring [req.body] finds: those of a JSON
    object; a value of another kind has none of the names read here.
    ([undefined] and [null] cannot be destructured at all: the handlers
    test for them first.) *)
Definition req_body (req : request) : list (string * json) :=
  match json_body req with
  | Some (JObj fields) => fields
  | _ => []
  end.

(** What a handler does to [res], in order. *)
Inductive res_event : Type :=
| Status (code : Z)
| SetHeader (name value : string)
| Json (payload : json)
| Write (chunk : string)
| End.

(** How an upstream body stream finishes: its ['end'] or ['error'] event. *)
Inductive stream_end : Type := StreamEnd | StreamError.

(** [response.data] as axios hands it over: the parsed body, or with
    [responseType: "stream"] the body stream, given by its ['data'] chunks
    and its last event. *)
Inductive response_data : Type :=
| Parsed (data : jsval)
| Stream (chunks : list string) (ending : stream_end).

(** Outcome of [await axios.post(...)]: resolved with [response.data], or
    rejected, with [error.response] when the upstream answered. *)
Inductive axios_outcome : Type :=
| Fulfilled (data : response_data)
| Rejected (response : option (Z * response_data)).

(** One [axios.post] call. *)
Record upstream_call : Type := {
  url : string;
  payload : json;
  authorization : string;
  responseType_stream : bool;
  timeout : Z
}.

(** What one handler run leaves behind: the events on [res], the calls made
    to the upstream, and whether the handler's promise rejected. *)
Record session : Type := {
  sent : list res_event;
  upstream_calls : list upstream_call;
  rejected : bool
}.

Definition RORAOS_API_URL : string := "https://labs.roraos.com/api/v1/chat".

(** [a || b] on header values. *)
Definition header_truthy (v : option string) : bool :=
  match v with
  | Some s => negb (s =? "")
  | None => false
  end.

Definition header_or (a b : option string) : option string :=
  if header_truthy a then a else b.

(** [res.headersSent]: the head of the response has left, which the first
    [json], [write] or [end] causes. *)
Definition headersSent (log : list res_event) : bool :=
  existsb (fun ev => match ev with
                     | Json _ | Write _ | End => true
                     | _ => false
                     end) log.

(** An object literal: properties whose value is [undefined] are not
    serialized. *)
Fixpoint obj (props : list (string * jsval)) : list (string * json) :=
  match props with
  | [] => []
  | (k, Some v) :: rest => (k, v) :: obj rest
  | (_, None) :: rest => obj rest
  end.

(** A destructuring default: used when the property is [undefined]. *)
Definition with_default (v : jsval) (d : json) : jsval :=
  match v with
  | None => Some d
  | Some _ => v
  end.

(** Property read on [response.data]; a stream object has none of the
    properties read here. *)
Definition data_prop (d : response_data) (name : string) : completion jsval :=
  match d with
  | Parsed v => get_prop v name
  | Stream _ _ => Normal None
  end.

(** The upstream's stream events reaching the handlers registered by
    [response.data.on(...)]: ['data'] writes the chunk, ['end'] and
    ['error'] both end the response. *)
Inductive stream_event : Type :=
| OnData (chunk : string)
| OnEnd
| OnError.

Definition events_of (chunks : list string) (ending : stream_end) : list stream_event :=
  map OnData chunks ++ [match ending with StreamEnd => OnEnd | StreamError => OnError end].

Definition on_event (log : list res_event) (ev : stream_event) : list res_event :=
  match ev with
  | OnData chunk => log ++ [Write chunk]
  | OnEnd => log ++ [End]
  | OnError => log ++ [End]
  end.

Definition pipe (events : list stream_event) (log : list res_event) : list res_event :=
  fold_left on_event events log.

Section Server.

(** Process-wide configuration and the upstream behind [axios.post]. *)
Variable RORAOS_API_KEY : string.
Variable upstream : upstream_call -> axios_outcome.

(** [getApiKey(req)]. *)
Definition getApiKey (req : request) : string :=
  let authHeader := header_or (headers req !! "x-api-key") (headers req !! "authorization") in
  match authHeader with
  | Some h =>
      if header_truthy authHeader && startsWith h "Bearer " then slice 7 h
      else if header_truthy authHeader then h else RORAOS_API_KEY
  | None => RORAOS_API_KEY
  end.

(** The body of both [axios.post] calls. *)
Definition chat_call (req : request) (stream : bool) : upstream_call :=
  let b := req_body req in
  {| url := RORAOS_API_URL;
     payload := JObj (obj [("messages", assoc "messages" b);
                           ("model", with_default (assoc "model" b) (JStr "gpt-4o"));
                           ("temperature", with_default (assoc "temperature" b) (JNum 7 (-1)));
                           ("max_tokens", with_default (assoc "max_tokens" b) (JNum 2000 0));
                           ("stream", Some (JBool stream))]);
     authorization := "Bearer " ++ getApiKey req;
     responseType_stream := stream;
     timeout := 120000 |}.

(** [!messages || !Array.isArray(messages)]. *)
Definition invalid_messages (messages : jsval) : bool :=
  negb (truthy messages) || negb (isArray messages).

Definition bad_request : list res_event :=
  [Status 400; Json (JObj [("error", JStr "messages array is required")])].

Definition internal_error : list res_event :=
  [Status 500; Json (JObj [("error", JStr "Internal server error")])].

(** [response.data.choices[0].message.content]. *)
Definition first_choice_content (d : response_data) : completion jsval :=
  choices <- data_prop d "choices" ;;
  first <- get_index0 choices ;;
  message <- get_prop first "message" ;;
  get_prop message "content".

(** [app.post("/api/chat", ...)]. *)
Definition post_api_chat (req : request) : session :=
  let messages := assoc "messages" (req_body req) in
  let model := with_default (assoc "model" (req_body req)) (JStr "gpt-4o") in
  if nullish (json_body req) then
    {| sent := internal_error; upstream_calls := []; rejected := false |}
  else if invalid_messages messages then
    {| sent := bad_request; upstream_calls := []; rejected := false |}
  else
    let call := chat_call req false in
    match upstream call with
    | Fulfilled data =>
        match first_choice_content data with
        | Normal content =>
            let served := match data_prop data "model" with
                          | Normal m => js_or m model
                          | Throw _ => model
                          end in
            let usage := match data_prop data "usage" with
                         | Normal u => u
                         | Throw _ => None
                         end in
            {| sent := [Json (JObj (obj [("content", content);
                                         ("model", served);
                                         ("usage", usage)]))];
               upstream_calls := [call]; rejected := false |}
        | Throw _ =>
            {| sent := internal_error; upstream_calls := [call]; rejected := false |}
        end
    | Rejected (Some (code, data)) =>
        match data_prop data "error" with
        | Normal e =>
            {| sent := [Status code;
                        Json (JObj (obj [("error", js_or e (Some (JStr "API request failed")))]))];
               upstream_calls := [call]; rejected := false |}
        | Throw _ =>
            {| sent := [Status code]; upstream_calls := [call]; rejected := true |}
        end
    | Rejected None =>
        {| sent := internal_error; upstream_calls := [call]; rejected := false |}
    end.

Definition sse_headers : list res_event :=
  [SetHeader "Content-Type" "text/event-stream";
   SetHeader "Cache-Control" "no-cache";
   SetHeader "Connection" "keep-alive"].

(** The [catch] block of the streaming handler. *)
Definition stream_catch (log : list res_event) : list res_event :=
  if negb (headersSent log) then log ++ internal_error else log ++ [End].

(** [app.post("/api/chat/stream", ...)], stopped after the first [steps]
    events of the upstream stream have been handled. *)
Definition post_api_chat_stream_upto (steps : nat) (req : request) : session :=
  let messages := assoc "messages" (req_body req) in
  if nullish (json_body req) then
    {| sent := stream_catch []; upstream_calls := []; rejected := false |}
  else if invalid_messages messages then
    {| sent := bad_request; upstream_calls := []; rejected := false |}
  else
    let call := chat_call req true in
    match upstream call with
    | Fulfilled (Stream chunks ending) =>
        {| sent := pipe (firstn steps (events_of chunks ending)) sse_headers;
           upstream_calls := [call]; rejected := false |}
    | Fulfilled (Parsed _) =>
        {| sent := stream_catch sse_headers; upstream_calls := [call]; rejected := false |}
    | Rejected _ =>
        {| sent := stream_catch sse_headers; upstream_calls := [call]; rejected := false |}
    end.

(** The whole session: the upstream stream handled up to its last event. *)
Definition post_api_chat_stream (req : request) : session :=
  let messages := assoc "messages" (req_body req) in
  if nullish (json_body req) then
    {| sent := stream_catch []; upstream_calls := []; rejected := false |}
  else if invalid_messages messages then
    {| sent := bad_request; upstream_calls := []; rejected := false |}
  else
    let call := chat_call req true in
    match upstream call with
    | Fulfilled (Stream chunks ending) =>
        {| sent := pipe (events_of chunks ending) sse_headers;
           upstream_calls := [call]; rejected := false |}
    | Fulfilled (Parsed _) =>
        {| sent := stream_catch sse_headers; upstream_calls := [call]; rejected := false |}
    | Rejected _ =>
        {| sent := stream_catch sse_headers; upstream_calls := [call]; rejected := false |}
    end.

End Server.

(** The chunks written to the client, in order, and their concatenation. *)
Fixpoint written (log : list res_event) : list string :=
  match log with
  | [] => []
  | Write chunk :: rest => chunk :: written rest
  | _ :: rest => written rest
  end.

Definition delivered (log : list res_event) : string :=
  join (written log).

(** The [content] of a buffered reply, when one was sent. *)
Definition reply_content (log : list res_event) : jsval :=
  match log with
  | [Json (JObj fields)] => assoc "content" fields
  | _ => None
  end.

(* ================================================================== *)
(** ** Vocabulary of the statements *)
(* ================================================================== *)

(** A record: a line without a newline inside. *)
Fixpoint no_LF (s : string) : bool :=
  match s with
  | String c rest => negb (Ascii.eqb c LF) && no_LF rest
  | "" => true
  end.

(** A chunk made of whole records, each closed by its newline. *)
Fixpoint chunk_of (records : list string) : string :=
  match records with
  | [] => ""
  | r :: rest => (r ++ String LF (chunk_of rest))%string
  end.

(** The record with a given payload. *)
Definition record_of (payload : string) : string := "data: " ++ payload.

(** The line carrying the end sentinel. *)
Definition is_sentinel (line : string) : bool :=
  match data_of line with
  | Some data => data =? "[DONE]"
  | None => false
  end.

(** The values a decoder appends for one extracted content. *)
Definition emit (v : jsval) : list json :=
  match v with
  | Some d => if truthy v then [d] else []
  | None => []
  end.

(** What is appended of them: a value whose string conversion throws
    leaves the content as it was. *)
Definition emitted (v : jsval) : list json := List.filter converts (emit v).

(** The two field paths of a record, read as JavaScript reads them. *)
Definition top_content (parsed : json) : jsval :=
  opt_prop (Some parsed) "content".

Definition nested_content (parsed : json) : jsval :=
  opt_prop (opt_prop (opt_index0 (opt_prop (Some parsed) "choices")) "delta") "content".

(** The field paths tried in priority order: the first truthy one. *)
Definition first_content (parsed : json) : jsval :=
  if truthy (top_content parsed) then top_content parsed
  else nested_content parsed.

(** The frame decoding of the specification (its section 4.2), on a whole
    byte stream: the records are the newline-terminated lines (bytes after
    the last newline are no record yet); a record counts when it begins
    with the prefix ["data: "]; the end sentinel terminates the decoding;
    a JSON payload yields the text found at [content], else at
    [choices[0].delta.content]; an empty text and a malformed payload are
    skipped.  These are the deltas that a framed stream carries. *)
Fixpoint spec_records (JSON_parse : string -> completion json) (records : list string)
  : list string :=
  match records with
  | [] => []
  | record :: rest =>
      match data_of record with
      | Some payload =>
          if payload =? "[DONE]" then []
          else
            match JSON_parse payload with
            | Normal parsed =>
                match first_content parsed with
                | Some (JStr text) =>
                    if text =? "" then spec_records JSON_parse rest
                    else text :: spec_records JSON_parse rest
                | _ => spec_records JSON_parse rest
                end
            | Throw _ => spec_records JSON_parse rest
            end
      | None => spec_records JSON_parse rest
      end
  end.

Definition spec_deltas (JSON_parse : string -> completion json) (bytes : string)
  : list string :=
  spec_records JSON_parse (List.removelast (split bytes)).

(** A response whose body stream delivers [chunks] and then ends. *)
Definition streaming_ok (chunks : list string) : fetch_response :=
  {| ok := true; status := 200; response_json := Throw SyntaxError;
     has_body := true; body := chunks; body_fails := false |}.

(** The three records of the spec's example stream. *)
Definition example_records : list string :=
  [wire "data: {'content':'Hel'}"; wire "data: {'content':'lo'}"; "data: [DONE]"].

Definition example_stream : string := chunk_of example_records.

(** Two records, the second behind a byte-order mark, in one read and cut
    between the records. *)
Definition marked_records : list string :=
  [wire "data: {'content':'a'}"; (BOM ++ wire "data: {'content':'b'}")%string].

Definition marked_stream : string := chunk_of marked_records.

Definition marked_cut : list string :=
  map chunk_of [firstn 1 marked_records; skipn 1 marked_records].

(** The example stream cut after 20 bytes, inside its first record. *)
Definition example_cut : list string :=
  [substring 0 20 example_stream;
   substring 20 (String.length example_stream - 20) example_stream].

(** A record in the nested (OpenAI) shape and one that is no JSON. *)
Definition nested_payload : string := wire "{'choices':[{'delta':{'content':'x'}}]}".
Definition malformed_payload : string := "{not json".

(** The event a stream event leaves on the response. *)
Definition event_of (ev : stream_event) : res_event :=
  match ev with
  | OnData chunk => Write chunk
  | OnEnd => End
  | OnError => End
  end.

(** The value after the prefix ["Bearer "] (7 characters), else the value
    as it is. *)
Definition bearer_token (value : string) : string :=
  if startsWith value "Bearer " then slice 7 value else value.

(** *** Stub upstreams and requests *)

Definition hello_request : request :=
  {| headers := empty;
     json_body := Some (JObj [("messages", JArr [JObj [("role", JStr "user");
                                                       ("content", JStr "Hi")]])]) |}.

Definition empty_messages_request : request :=
  {| headers := empty; json_body := Some (JObj [("messages", JArr [])]) |}.

(** A stub answering "Hello": as one JSON body to a buffered call, as the
    example stream, one record per chunk, to a streaming call. *)
Definition hello_upstream (call : upstream_call) : axios_outcome :=
  if responseType_stream call then
    Fulfilled (Stream (map chunk_of [firstn 1 example_records;
                                     firstn 1 (skipn 1 example_records);
                                     skipn 2 example_records]) StreamEnd)
  else
    Fulfilled (Parsed (Some (JObj
      [("choices", JArr [JObj [("message", JObj [("role", JStr "assistant");
                                                 ("content", JStr "Hello")])]]);
       ("model", JStr "gpt-4o")]))).

(** A stub refusing every call with HTTP 429 and the body
    [{"error":"rate limited"}]. *)
Definition rate_limited_upstream (call : upstream_call) : axios_outcome :=
  if responseType_stream call then
    Rejected (Some (429%Z, Stream [wire "{'error':'rate limited'}"] StreamEnd))
  else
    Rejected (Some (429%Z, Parsed (Some (JObj [("error", JStr "rate limited")])))).

(** A stub refusing every call with HTTP 429 and no body. *)
Definition silent_refusal_upstream (call : upstream_call) : axios_outcome :=
  Rejected (Some (429%Z, Parsed None)).

(** A stub whose body stream breaks after its first record. *)
Definition dropping_upstream (call : upstream_call) : axios_outcome :=
  Fulfilled (Stream (map chunk_of [firstn 1 example_records]) StreamError).

Definition both_headers_request : request :=
  {| headers := <["x-api-key" := "Bearer k-1"]> (<["authorization" := "Bearer a-2"]> empty);
     json_body := Some (JObj []) |}.

Definition authorization_request : request :=
  {| headers := <["authorization" := "raw-token"]> empty; json_body := Some (JObj []) |}.

(** Requests with a header that is sent with an empty value. *)
Definition empty_key_request : request :=
  {| headers := <["x-api-key" := ""]> (<["authorization" := "Bearer a-2"]> empty);
     json_body := Some (JObj []) |}.

Definition empty_authorization_request : request :=
  {| headers := <["authorization" := ""]> empty; json_body := Some (JObj []) |}.

(** *** Vocabulary of the further properties *)

(** The strings among the values appended to [fullContent]. *)
Fixpoint strings_of (values : list json) : list string :=
  match values with
  | [] => []
  | JStr s :: rest => s :: strings_of rest
  | _ :: rest => strings_of rest
  end.

(** Whether some line of a chunk carries the end sentinel. *)
Definition has_sentinel (chunk : string) : bool :=
  existsb is_sentinel (split chunk).

(** The invariant of the command-line decoders: the strings appended so
    far are the ones printed so far. *)
Definition printed_in_step (st : cli_state) : Prop :=
  stdout st = strings_of (fullContent st).

(** The invariant of the hook: one updater was queued for each value
    accumulated so far. *)
Definition queued_in_step (st : hook_state) : Prop :=
  queued st = length (hook_content st).

(** An event that finishes the response: [res.json] or [res.end]. *)
Definition finishes (ev : res_event) : bool :=
  match ev with
  | Json _ | End => true
  | _ => false
  end.

(* ================================================================== *)
(** ** servers/express_server.js: the utility endpoints *)
(* ================================================================== *)

(** [languageNames] of [POST /api/translate]. *)
Definition languageNames : list (string * string) :=
  [("en", "English"); ("id", "Indonesian"); ("ja", "Japanese"); ("ko", "Korean");
   ("zh", "Chinese"); ("es", "Spanish"); ("fr", "French"); ("de", "German")].

Fixpoint lookup_name (key : string) (table : list (string * string)) : option string :=
  match table with
  | [] => None
  | (k, v) :: rest => if k =? key then Some v else lookup_name key rest
  end.

Section Utilities.

Variable RORAOS_API_KEY : string.
Variable upstream : upstream_call -> axios_outcome.

(** The string conversion of JavaScript, which a template literal and a
    computed property name apply to a value that is no string; it throws
    for an object whose own [toString] and [valueOf] are unusable. *)
Variable ToString : json -> completion string.

(** The text a template literal gives for the property that
    [Object.prototype] defines under a name ([constructor], [toString],
    ...), [None] for every other name. *)
Variable inherited_text : string -> option string.

Definition text_of (v : jsval) : completion string :=
  match v with
  | Some (JStr s) => Normal s
  | Some other => ToString other
  | None => Normal "undefined"
  end.

(** The [axios.post] of the utility endpoints: fixed model, no [stream]
    property, no [responseType], no [timeout] (axios then sets none: 0). *)
Definition utility_call (req : request) (system : string) (user : jsval)
    (temperature max_tokens : json) : upstream_call :=
  {| url := RORAOS_API_URL;
     payload := JObj (obj [("messages",
                            Some (JArr [JObj [("role", JStr "system");
                                              ("content", JStr system)];
                                        JObj (obj [("role", Some (JStr "user"));
                                                   ("content", user)])]));
                           ("model", Some (JStr "gpt-4o"));
                           ("temperature", Some temperature);
                           ("max_tokens", Some max_tokens)]);
     authorization := "Bearer " ++ getApiKey RORAOS_API_KEY req;
     responseType_stream := false;
     timeout := 0 |}.

Definition failed (message : string) : list res_event :=
  [Status 500; Json (JObj [("error", JStr message)])].

Definition required (message : string) : list res_event :=
  [Status 400; Json (JObj [("error", JStr message)])].

(** What the three handlers do from [axios.post] on: the first choice's
    content goes into the reply, every failure into the [catch] block. *)
Definition relay_utility (call : upstream_call) (reply : jsval -> list (string * jsval))
    (failure : string) : session :=
  match upstream call with
  | Fulfilled data =>
      match first_choice_content data with
      | Normal content =>
          {| sent := [Json (JObj (obj (reply content)))];
             upstream_calls := [call]; rejected := false |}
      | Throw _ =>
          {| sent := failed failure; upstream_calls := [call]; rejected := false |}
      end
  | Rejected _ =>
      {| sent := failed failure; upstream_calls := [call]; rejected := false |}
  end.

(** [app.post("/api/summarize", ...)]. *)
Definition post_api_summarize (req : request) : session :=
  let text := assoc "text" (req_body req) in
  let language := with_default (assoc "language" (req_body req)) (JStr "en") in
  if nullish (json_body req) then
    {| sent := failed "Failed to summarize"; upstream_calls := []; rejected := false |}
  else if negb (truthy text) then
    {| sent := required "text is required"; upstream_calls := []; rejected := false |}
  else
    let name := match language with
                | Some (JStr "id") => "Indonesian"
                | _ => "English"
                end in
    relay_utility
      (utility_call req ("Summarize the following text concisely in " ++ name ++ ".")
         text (JNum 3 (-1)) (JNum 500 0))
      (fun content => [("summary", content)])
      "Failed to summarize".

(** [languageNames[to] || to], as the template literal renders it. *)
Definition targetLang (to : jsval) : completion string :=
  key <- text_of to ;;
  match lookup_name key languageNames with
  | Some name => if name =? "" then Normal key else Normal name
  | None =>
      match inherited_text key with
      | Some text => Normal text
      | None => Normal key
      end
  end.

(** [app.post("/api/translate", ...)]. *)
Definition post_api_translate (req : request) : session :=
  let text := assoc "text" (req_body req) in
  let from := with_default (assoc "from" (req_body req)) (JStr "auto") in
  let to := with_default (assoc "to" (req_body req)) (JStr "en") in
  if nullish (json_body req) then
    {| sent := failed "Failed to translate"; upstream_calls := []; rejected := false |}
  else if negb (truthy text) then
    {| sent := required "text is required"; upstream_calls := []; rejected := false |}
  else
    match targetLang to with
    | Throw _ =>
        {| sent := failed "Failed to translate"; upstream_calls := []; rejected := false |}
    | Normal lang =>
        relay_utility
          (utility_call req
             ("Translate the following text to " ++ lang
              ++ ". Only output the translation, nothing else.")
             text (JNum 3 (-1)) (JNum 1000 0))
          (fun content => [("translation", content); ("from", from); ("to", to)])
          "Failed to translate"
    end.

(** [app.post("/api/code/generate", ...)]. *)
Definition post_api_code_generate (req : request) : session :=
  let prompt := assoc "prompt" (req_body req) in
  let language := with_default (assoc "language" (req_body req)) (JStr "javascript") in
  if nullish (json_body req) then
    {| sent := failed "Failed to generate code"; upstream_calls := []; rejected := false |}
  else if negb (truthy prompt) then
    {| sent := required "prompt is required"; upstream_calls := []; rejected := false |}
  else
    match text_of language with
    | Throw _ =>
        {| sent := failed "Failed to generate code"; upstream_calls := []; rejected := false |}
    | Normal lang =>
        relay_utility
          (utility_call req
             ("You are an expert " ++ lang
              ++ " programmer. Generate clean, well-documented code. Only output the code, no explanations unless asked.")
             prompt (JNum 3 (-1)) (JNum 2000 0))
          (fun content => [("code", content); ("language", language)])
          "Failed to generate code"
    end.

End Utilities.

(** The system prompt and the user text of an upstream call. *)
Definition message_content (call : upstream_call) (index : nat) : jsval :=
  match payload call with
  | JObj fields =>
      match assoc "messages" fields with
      | Some (JArr messages) =>
          match nth_error messages index with
          | Some (JObj message) => assoc "content" message
          | _ => None
          end
      | _ => None
      end
  | _ => None
  end.

(* ================================================================== *)
(** ** basic/regular_api.js and basic/agent_api.js: the entry points *)
(* ================================================================== *)

(** What [fetch] is called with: the URL, the [Authorization] header and
    the payload that [JSON.stringify] serializes. *)
Record fetch_request : Type := {
  fetch_url : string;
  fetch_authorization : string;
  fetch_payload : json
}.

(** [const { a = x, ... } = options] with [options = {}] as the default of
    the parameter: [undefined] stands for the empty object, [null] cannot
    be destructured, and only an object has properties of its own. *)
Definition destructure (options : jsval) : completion (list (string * json)) :=
  match options with
  | None => Normal []
  | Some JNull => Throw TypeError
  | Some (JObj fields) => Normal fields
  | Some _ => Normal []
  end.

Section Clients.

Variable JSON_parse : string -> completion json.

(** [fetch]: the response it resolves to, or the failure it rejects with. *)
Variable fetch : fetch_request -> completion fetch_response.

(** The payload of [chatCompletion]. *)
Definition chat_payload (messages : jsval) (fields : list (string * json)) : json :=
  JObj (obj [("messages", messages);
             ("model", Some (JStr "gpt-4o"));
             ("stream", with_default (assoc "stream" fields) (JBool false));
             ("temperature", with_default (assoc "temperature" fields) (JNum 7 (-1)));
             ("max_tokens", with_default (assoc "max_tokens" fields) (JNum 2000 0))]).

Definition regular_request (API_KEY : string) (body : json) : fetch_request :=
  {| fetch_url := "https://labs.roraos.com/api/v1/chat";
     fetch_authorization := "Bearer " ++ API_KEY;
     fetch_payload := body |}.

(** [chatCompletion(messages, options)]: the parsed body ([inl]), or with
    [stream] the run of [chatCompletionStream] ([inr]). *)
Definition chatCompletion (API_KEY : string) (messages options : jsval)
  : completion (json + cli_run) :=
  fields <- destructure options ;;
  let body := chat_payload messages fields in
  let stream := with_default (assoc "stream" fields) (JBool false) in
  response <- fetch (regular_request API_KEY body) ;;
  if truthy stream then
    run <- chatCompletionStream JSON_parse response ;;
    Normal (inr run)
  else if negb (ok response) then raise (api_failure response)
  else
    data <- response_json response ;;
    Normal (inl data).

(** The payload of [agentChat]: the overrides are set when they are not
    [undefined]. *)
Definition agent_payload (messages : jsval) (fields : list (string * json)) : json :=
  JObj (obj [("messages", messages);
             ("stream", with_default (assoc "stream" fields) (JBool false));
             ("temperature", assoc "temperature" fields);
             ("max_tokens", assoc "max_tokens" fields)]).

Definition agent_request (AGENT_API_KEY : string) (body : json) : fetch_request :=
  {| fetch_url := "https://labs.roraos.com/api/v1/agents/chat";
     fetch_authorization := "Bearer " ++ AGENT_API_KEY;
     fetch_payload := body |}.

(** [agentChat(messages, options)]. *)
Definition agentChat (AGENT_API_KEY : string) (messages options : jsval)
  : completion (json + cli_run) :=
  fields <- destructure options ;;
  let body := agent_payload messages fields in
  let stream := with_default (assoc "stream" fields) (JBool false) in
  response <- fetch (agent_request AGENT_API_KEY body) ;;
  if truthy stream then
    run <- agentChatStream JSON_parse response ;;
    Normal (inr run)
  else if negb (ok response) then raise (api_failure response)
  else
    data <- response_json response ;;
    Normal (inl data).

End Clients.

(* ================================================================== *)
(** ** frontend/react_useChat.tsx: the hook *)
(* ================================================================== *)

Module UseChat.

(** The content of a message: a value as it came, or the text accumulated
    from the deltas of a stream (the empty list is the empty text). *)
Inductive msg_content : Type :=
| Value (v : json)
| Accumulated (deltas : list json).

(** A [Message]; its [timestamp] is written and never read, and is left
    out. *)
Record Message : Type := {
  role : string;
  content : msg_content
}.

(** The state the hook keeps: [messages], [isLoading] and [error] from
    [useState], [systemPromptRef.current] from [useRef]. *)
Record chat_state : Type := {
  messages : list Message;
  isLoading : bool;
  error : option js_error;
  systemPrompt : string
}.

(** A call of one of the callbacks of the options. *)
Inductive callback : Type :=
| OnError (e : js_error)
| OnMessage (m : Message).

(** What [fetch] is called with: the options of the hook go into every
    request alike; the conversation and the [stream] flag vary. *)
Record api_request : Type := {
  api_messages : list Message;
  api_stream : bool
}.

(** What one call leaves behind: the state after its last update, the
    callbacks it made and the requests it sent, in order. *)
Record effects : Type := {
  state : chat_state;
  callbacks : list callback;
  requests : list api_request
}.

Definition initial (initialSystemPrompt : string) : chat_state :=
  {| messages := []; isLoading := false; error := None;
     systemPrompt := initialSystemPrompt |}.

(** [setSystemPrompt(prompt)]. *)
Definition setSystemPrompt (prompt : string) (st : chat_state) : chat_state :=
  {| messages := messages st; isLoading := isLoading st; error := error st;
     systemPrompt := prompt |}.

(** [clearMessages()]. *)
Definition clearMessages (st : chat_state) : chat_state :=
  {| messages := []; isLoading := isLoading st; error := None;
     systemPrompt := systemPrompt st |}.

Section Hook.

Variable JSON_parse : string -> completion json.
Variable fetch : api_request -> completion fetch_response.

(** [String.prototype.trim]. *)
Variable trim : string -> string.

(** The [stream] option of the hook. *)
Variable stream : bool.

(** [data.choices?.[0]?.message?.content || '']. *)
Definition assistant_content (data : json) : completion json :=
  choices <- get_prop (Some data) "choices" ;;
  let found := opt_prop (opt_prop (opt_index0 choices) "message") "content" in
  match js_or found (Some (JStr "")) with
  | Some v => Normal v
  | None => Normal (JStr "")
  end.

(** What a request does to the conversation, and how it completes: the
    messages it appends after the user's, and the final message it hands
    to [onMessage], or the exception it throws. *)
Definition sendNormalRequest (apiMessages : list Message)
  : list Message * completion Message :=
  match fetch {| api_messages := apiMessages; api_stream := false |} with
  | Throw e => ([], Throw e)
  | Normal response =>
      if negb (ok response) then ([], Throw (hook_failure response))
      else
        match data <- response_json response ;; assistant_content data with
        | Throw e => ([], Throw e)
        | Normal v =>
            let m := {| role := "assistant"; content := Value v |} in
            ([m], Normal m)
        end
  end.

(** The state of the read loop when it stops, by [done] or by a failing
    read: every chunk delivered before has been decoded. *)
Definition stream_progress (response : fetch_response) : hook_state :=
  fold_left (fun st chunk => hook_chunk JSON_parse chunk st) (body response)
    {| hook_content := []; queued := 0 |}.

Definition sendStreamingRequest_effects (apiMessages : list Message)
  : list Message * completion Message :=
  match fetch {| api_messages := apiMessages; api_stream := true |} with
  | Throw e => ([], Throw e)
  | Normal response =>
      match sendStreamingRequest JSON_parse response with
      | Normal run =>
          let m := {| role := "assistant"; content := Accumulated (final_message run) |} in
          ([m], Normal m)
      | Throw e =>
          if ok response && has_body response then
            ([{| role := "assistant";
                 content := Accumulated (hook_content (stream_progress response)) |}],
             Throw e)
          else ([], Throw e)
      end
  end.

(** [sendMessage(content)], called from the current render (its
    [messages] and [isLoading] are the state's) with no other update in
    between. *)
Definition sendMessage (text : string) (st : chat_state) : effects :=
  if (trim text =? "") || isLoading st then
    {| state := st; callbacks := []; requests := [] |}
  else
    let userMessage := {| role := "user"; content := Value (JStr (trim text)) |} in
    let apiMessages :=
      {| role := "system"; content := Value (JStr (systemPrompt st)) |}
        :: map (fun m => {| role := role m; content := content m |}) (messages st)
        ++ [{| role := "user"; content := Value (JStr (trim text)) |}] in
    let '(appended, outcome) :=
      if stream then sendStreamingRequest_effects apiMessages
      else sendNormalRequest apiMessages in
    {| state := {| messages := messages st ++ userMessage :: appended;
                   isLoading := false;
                   error := match outcome with
                            | Normal _ => None
                            | Throw e => Some e
                            end;
                   systemPrompt := systemPrompt st |};
       callbacks := [match outcome with
                     | Normal m => OnMessage m
                     | Throw e => OnError e
                     end];
       requests := [{| api_messages := apiMessages; api_stream := stream |}] |}.

End Hook.

End UseChat.

(** A session that answered with one JSON body, under status 200 (none
    set), 400 or 500, after at most one upstream call. *)
Definition answered_once (s : session) : Prop :=
  rejected s = false /\
  length (upstream_calls s) <= 1 /\
  exists pre payload,
    sent s = pre ++ [Json payload] /\
    (pre = [] \/ pre = [Status 400] \/ pre = [Status 500]).

(** The system prompt of a translation into [lang]. *)
Definition translation_prompt (lang : string) : string :=
  "Translate the following text to " ++ lang
  ++ ". Only output the translation, nothing else.".

(** *** Instances and stubs for the further properties *)

(** A body stream that breaks after the example stream has been read. *)
Definition breaking_response : fetch_response :=
  {| ok := true; status := 200; response_json := Throw SyntaxError;
     has_body := true; body := [example_stream]; body_fails := true |}.

(** A refusal with HTTP 429 and the body [{"error":"rate limited"}]. *)
Definition refused_response : fetch_response :=
  {| ok := false; status := 429;
     response_json := Normal (JObj [("error", JStr "rate limited")]);
     has_body := true; body := []; body_fails := false |}.

(** A buffered answer "Hello". *)
Definition hello_response : fetch_response :=
  {| ok := true; status := 200;
     response_json :=
       Normal (JObj [("choices",
                      JArr [JObj [("message", JObj [("role", JStr "assistant");
                                                    ("content", JStr "Hello")])]])]);
     has_body := true; body := []; body_fails := false |}.

(** The example stream without its sentinel, one record per chunk. *)
Definition open_stream : list string :=
  map chunk_of [firstn 1 example_records; firstn 1 (skipn 1 example_records)].

(** A request like [hello_request] that also asks for [stream] and names
    another model for a summary. *)
Definition noisy_request : request :=
  {| headers := empty;
     json_body := Some (JObj [("messages", JArr [JObj [("role", JStr "user");
                                                       ("content", JStr "Hi")]]);
                              ("stream", JBool true); ("extra", JNum 1 0)]) |}.

Definition summary_request : request :=
  {| headers := empty;
     json_body := Some (JObj [("text", JStr "A long text."); ("language", JStr "id")]) |}.

Definition translation_request (from : string) : request :=
  {| headers := empty;
     json_body := Some (JObj [("text", JStr "Selamat pagi"); ("from", JStr from);
                              ("to", JStr "ja")]) |}.

(** The names [Object.prototype] defines, with the text a template
    literal gives for each (as V8 prints a native function). *)
Definition object_prototype_text (name : string) : option string :=
  if name =? "constructor" then Some "function Object() { [native code] }"
  else if name =? "__proto__" then Some "[object Object]"
  else if existsb (String.eqb name)
            ["toString"; "toLocaleString"; "valueOf"; "hasOwnProperty";
             "isPrototypeOf"; "propertyIsEnumerable"; "__defineGetter__";
             "__defineSetter__"; "__lookupGetter__"; "__lookupSetter__"]
       then Some ("function " ++ name ++ "() { [native code] }")%string
  else None.

(** The string conversion on the values whose conversion is a fixed text:
    [null], booleans and strings; for any other value this instance
    throws, which JavaScript does only for some objects. *)
Definition fixed_ToString (v : json) : completion string :=
  match v with
  | JNull => Normal "null"
  | JBool true => Normal "true"
  | JBool false => Normal "false"
  | JStr s => Normal s
  | _ => Throw TypeError
  end.

(** Removal of leading and trailing blanks (space, tab, line feed,
    carriage return): [String.prototype.trim] on ASCII text. *)
Fixpoint trim_left (s : string) : string :=
  match s with
  | String c rest => if RefParser.is_ws c then trim_left rest else s
  | "" => ""
  end.

Fixpoint trim_right (s : string) : string :=
  match s with
  | String c rest =>
      match trim_right rest with
      | "" => if RefParser.is_ws c then "" else String c ""
      | kept => String c kept
      end
  | "" => ""
  end.

Definition trim_ascii (s : string) : string := trim_right (trim_left s).

(* ================================================================== *)
(** * Properties *)
(* ================================================================== *)

(** ** Strings and lines *)

Lemma data_of_data (p : string) : data_of (record_of p) = Some p.
Proof. reflexivity. Qed.

Lemma split_record (r rest : string) :
  no_LF r = true -> split (r ++ String LF rest) = r :: split rest.
Proof.
  induction r as [|c r IH]; simpl; intros H.
  - reflexivity.
  - apply andb_prop in H as [Hc Hr].
    destruct (Ascii.eqb c LF); [discriminate|].
    now rewrite (IH Hr).
Qed.

Lemma split_chunk_of (records : list string) :
  Forall (fun r => no_LF r = true) records ->
  split (chunk_of records) = records ++ [""].
Proof.
  induction 1 as [|r rs Hr _ IH]; simpl.
  - reflexivity.
  - now rewrite split_record, IH.
Qed.

Lemma append_assoc (a b c : string) :
  ((a ++ b) ++ c = a ++ (b ++ c))%string.
Proof. induction a as [|x a IH]; simpl; [reflexivity|now rewrite IH]. Qed.

Lemma chunk_of_app (a b : list string) :
  chunk_of (a ++ b) = (chunk_of a ++ chunk_of b)%string.
Proof.
  induction a as [|r a IH]; simpl; [reflexivity|].
  now rewrite IH, append_assoc.
Qed.

(** Cutting a stream between records: the chunks put back together are the
    stream. *)
Lemma concat_chunks (groups : list (list string)) :
  join (map chunk_of groups) = chunk_of (concat groups).
Proof.
  induction groups as [|g gs IH]; [reflexivity|].
  rewrite concat_cons, chunk_of_app, <- IH. reflexivity.
Qed.

Lemma join_app (a b : list string) : join (a ++ b) = (join a ++ join b)%string.
Proof.
  induction a as [|x a IH]; [reflexivity|].
  cbn [app join fold_right]. fold (join (a ++ b)). fold (join a).
  now rewrite IH, append_assoc.
Qed.

(** ** The read loop *)

Lemma read_loop_done {S : Type} (f : string -> S -> S) chunks st n :
  read_loop f chunks false st n =
  Normal (fold_left (fun s c => f c s) chunks st, Datatypes.S (n + length chunks)).
Proof.
  revert st n. induction chunks as [|c cs IH]; intros st n; simpl.
  - now rewrite Nat.add_0_r.
  - rewrite IH. do 3 f_equal. lia.
Qed.

Lemma read_loop_fails {S : Type} (f : string -> S -> S) chunks st n :
  read_loop f chunks true st n = Throw NetworkError.
Proof.
  revert st n. induction chunks as [|c cs IH]; intros st n; simpl; auto.
Qed.

(** ** The line loops *)

Section LineLoops.

Variable JSON_parse : string -> completion json.

Abbreviation regular := (regular_lines JSON_parse).
Abbreviation agent := (agent_lines JSON_parse).
Abbreviation hook := (hook_lines JSON_parse).

Lemma is_sentinel_data (line : string) :
  is_sentinel line = true <-> exists d, data_of line = Some d /\ (d =? "[DONE]") = true.
Proof.
  unfold is_sentinel. destruct (data_of line) as [d|]; split.
  - intros H. now exists d.
  - now intros (d' & [= <-] & H).
  - discriminate.
  - now intros (d' & [=] & _).
Qed.

(** A line loop passes over a line that is no sentinel and goes on. *)
Ltac step_line line :=
  unfold is_sentinel in *; simpl;
  destruct (data_of line) as [?d|]; [destruct (_ =? "[DONE]") eqn:?|]; try discriminate.

Lemma regular_app (g1 g2 : list string) st :
  Forall (fun l => is_sentinel l = false) g1 ->
  regular (g1 ++ g2) st = regular g2 (regular g1 st).
Proof.
  intros H. revert st. induction H as [|l g1 Hl _ IH]; intros st; [reflexivity|].
  step_line l; apply IH.
Qed.

Lemma agent_app (g1 g2 : list string) st :
  Forall (fun l => is_sentinel l = false) g1 ->
  agent (g1 ++ g2) st = agent g2 (agent g1 st).
Proof.
  intros H. revert st. induction H as [|l g1 Hl _ IH]; intros st; [reflexivity|].
  step_line l; apply IH.
Qed.

Lemma hook_app (g1 g2 : list string) st :
  hook (g1 ++ g2) st = hook g2 (hook g1 st).
Proof.
  revert st. induction g1 as [|l g1 IH]; intros st; [reflexivity|].
  simpl. destruct (data_of l) as [d|]; [destruct (d =? "[DONE]")|]; apply IH.
Qed.

(** The loop with [break] stops at the sentinel line. *)
Lemma regular_break (before after : list string) s st :
  Forall (fun l => is_sentinel l = false) before ->
  is_sentinel s = true ->
  regular (before ++ s :: after) st = regular before st.
Proof.
  intros Hb Hs. rewrite regular_app by assumption.
  apply is_sentinel_data in Hs as (d & Hd & Hdone). simpl. now rewrite Hd, Hdone.
Qed.

Lemma agent_break (before after : list string) s st :
  Forall (fun l => is_sentinel l = false) before ->
  is_sentinel s = true ->
  agent (before ++ s :: after) st = agent before st.
Proof.
  intros Hb Hs. rewrite agent_app by assumption.
  apply is_sentinel_data in Hs as (d & Hd & Hdone). simpl. now rewrite Hd, Hdone.
Qed.

(** The loop with [continue] passes over it. *)
Lemma hook_continue (before after : list string) s st :
  is_sentinel s = true ->
  hook (before ++ s :: after) st = hook (before ++ after) st.
Proof.
  intros Hs. rewrite !hook_app.
  apply is_sentinel_data in Hs as (d & Hd & Hdone). simpl. now rewrite Hd, Hdone.
Qed.

(** The empty piece that [split] leaves after a closing newline. *)
Lemma regular_blank (g : list string) st : regular (g ++ [""]) st = regular g st.
Proof.
  revert st. induction g as [|l g IH]; intros st; [reflexivity|].
  simpl. destruct (data_of l) as [d|]; [destruct (d =? "[DONE]")|]; auto.
Qed.

Lemma agent_blank (g : list string) st : agent (g ++ [""]) st = agent g st.
Proof.
  revert st. induction g as [|l g IH]; intros st; [reflexivity|].
  simpl. destruct (data_of l) as [d|]; [destruct (d =? "[DONE]")|]; auto.
Qed.

Lemma hook_blank (g : list string) st : hook (g ++ [""]) st = hook g st.
Proof. now rewrite hook_app. Qed.

Lemma regular_chunk_records (g : list string) st :
  Forall (fun r => no_LF r = true) g ->
  regular_chunk JSON_parse (chunk_of g) st = regular g st.
Proof.
  intros H. unfold regular_chunk. now rewrite split_chunk_of, regular_blank.
Qed.

Lemma agent_chunk_records (g : list string) st :
  Forall (fun r => no_LF r = true) g ->
  agent_chunk JSON_parse (chunk_of g) st = agent g st.
Proof.
  intros H. unfold agent_chunk. now rewrite split_chunk_of, agent_blank.
Qed.

Lemma hook_chunk_records (g : list string) st :
  Forall (fun r => no_LF r = true) g ->
  hook_chunk JSON_parse (chunk_of g) st = hook g st.
Proof.
  intros H. unfold hook_chunk. now rewrite split_chunk_of, hook_blank.
Qed.

(** Record-aligned chunks without a sentinel decode like their records in
    one piece. *)
Lemma regular_chunks_fold (groups : list (list string)) st :
  Forall (Forall (fun r => no_LF r = true)) groups ->
  Forall (Forall (fun r => is_sentinel r = false)) groups ->
  fold_left (fun s c => regular_chunk JSON_parse c s) (map chunk_of groups) st =
  regular (concat groups) st.
Proof.
  intros Hlf. revert st. induction Hlf as [|g gs Hg _ IH]; intros st Hs; [reflexivity|].
  inversion Hs as [|? ? Hg' Hgs']; subst. simpl.
  rewrite regular_chunk_records, regular_app by assumption. now apply IH.
Qed.

Lemma hook_chunks_fold (groups : list (list string)) st :
  Forall (Forall (fun r => no_LF r = true)) groups ->
  fold_left (fun s c => hook_chunk JSON_parse c s) (map chunk_of groups) st =
  hook (concat groups) st.
Proof.
  intros Hlf. revert st. induction Hlf as [|g gs Hg _ IH]; intros st; [reflexivity|].
  simpl. rewrite hook_chunk_records, hook_app by assumption. apply IH.
Qed.

End LineLoops.

(** ** C3: fragmentation of the byte stream across reads *)

Lemma map_decode_fixed (chunks : list string) :
  Forall (fun chunk => decode chunk = chunk) chunks -> map decode chunks = chunks.
Proof.
  induction 1 as [|c cs Hc _ IH]; [reflexivity|]. simpl. now rewrite Hc, IH.
Qed.

(** C3, as the code has it.  [chatCompletionStream] and
    [sendStreamingRequest] keep no buffer between reads: the bytes of
    every read are decoded, split on newlines and handled by themselves.
    When the stream is cut between records (every read holds whole
    newline-terminated records), the end sentinel, if any, lies in the
    last read, and the stream and each read are texts that [decode] gives
    back as they are (well-formed UTF-8 with no byte-order mark at their
    start), the reads are a partition of the stream and the decoder
    appends and prints the same deltas as on the stream read in one piece;
    the hook accumulates the same message.  The spec's example stream cut
    at any of its record boundaries yields exactly the deltas "Hel" and
    "lo". *)
Theorem C3_record_aligned_chunks
    (JSON_parse : string -> completion json)
    (groups : list (list string)) (last : list string) :
  Forall (Forall (fun r => no_LF r = true)) (groups ++ [last]) ->
  Forall (Forall (fun r => is_sentinel r = false)) groups ->
  Forall (fun read => decode read = read) (map chunk_of (groups ++ [last])) ->
  decode (chunk_of (concat (groups ++ [last]))) = chunk_of (concat (groups ++ [last])) ->
  join (map chunk_of (groups ++ [last])) = chunk_of (concat (groups ++ [last])) /\
  (exists whole parts,
      chatCompletionStream JSON_parse
        (streaming_ok [decode (chunk_of (concat (groups ++ [last])))]) = Normal whole /\
      chatCompletionStream JSON_parse
        (streaming_ok (map decode (map chunk_of (groups ++ [last])))) = Normal parts /\
      returned parts = returned whole /\
      printed parts = printed whole) /\
  (exists whole parts,
      sendStreamingRequest JSON_parse
        (streaming_ok [decode (chunk_of (concat (groups ++ [last])))]) = Normal whole /\
      sendStreamingRequest JSON_parse
        (streaming_ok (map decode (map chunk_of (groups ++ [last])))) = Normal parts /\
      final_message parts = final_message whole /\
      updates parts = updates whole) /\
  (forall reads,
      In reads [ map chunk_of [example_records];
                 map chunk_of [firstn 1 example_records; skipn 1 example_records];
                 map chunk_of [firstn 2 example_records; skipn 2 example_records];
                 map chunk_of [firstn 1 example_records;
                               firstn 1 (skipn 1 example_records);
                               skipn 2 example_records] ] ->
      exists run,
        chatCompletionStream json_parse (streaming_ok (map decode reads)) = Normal run /\
        returned run = [JStr "Hel"; JStr "lo"]).
Proof.
  intros Hlf Hs Hreads Hstream. rewrite Hstream, (map_decode_fixed _ Hreads).
  split; [apply concat_chunks|]. split; [|split].
  2:{ unfold sendStreamingRequest. simpl. rewrite !read_loop_done. simpl.
      eexists _, _. split; [reflexivity|]. split; [reflexivity|]. simpl.
      rewrite (hook_chunks_fold JSON_parse (groups ++ [last])) by exact Hlf.
      rewrite hook_chunk_records by (apply Forall_concat; exact Hlf).
      split; reflexivity. }
  - unfold chatCompletionStream. simpl. rewrite !read_loop_done. simpl.
    eexists _, _. split; [reflexivity|]. split; [reflexivity|].
    assert (Hall : Forall (fun r => no_LF r = true) (concat (groups ++ [last]))).
    { apply Forall_concat. exact Hlf. }
    apply Forall_app in Hlf as [Hg Hl]. inversion Hl as [|? ? Hl' _]; subst.
    rewrite regular_chunk_records by assumption.
    rewrite map_app, fold_left_app, (regular_chunks_fold JSON_parse groups) by assumption.
    simpl.
    rewrite regular_chunk_records by assumption.
    rewrite concat_app, regular_app; simpl.
    + rewrite app_nil_r. split; reflexivity.
    + apply Forall_concat. exact Hs.
  - intros reads Hin. simpl in Hin.
    destruct Hin as [<-|[<-|[<-|[<-|[]]]]];
      (eexists; split; [vm_compute; reflexivity|reflexivity]).
Qed.

Lemma C3_record_aligned_chunks_witness :
  exists whole parts,
    chatCompletionStream json_parse
      (streaming_ok [decode (chunk_of example_records)]) = Normal whole /\
    chatCompletionStream json_parse
      (streaming_ok (map decode (map chunk_of [firstn 1 example_records;
                                               firstn 1 (skipn 1 example_records);
                                               skipn 2 example_records]))) = Normal parts /\
    returned parts = returned whole /\
    printed parts = printed whole.
Proof.
  refine (proj1 (proj2 (C3_record_aligned_chunks json_parse
            [firstn 1 example_records; firstn 1 (skipn 1 example_records)]
            (skipn 2 example_records) _ _ _ _))).
  - repeat constructor.
  - repeat constructor.
  - repeat constructor.
  - reflexivity.
Defined.

(** C3 as stated fails: the example stream cut in the middle of its first
    record (after 20 bytes) yields the single delta "lo", where the same
    bytes in one read yield "Hel" and "lo". *)
Lemma C3_midline_cut_loses_delta :
  join example_cut = example_stream /\
  chatCompletionStream json_parse (streaming_ok (map decode [example_stream]))
    = Normal {| returned := [JStr "Hel"; JStr "lo"];
                printed := ["Hel"; "lo"; String LF ""];
                reads := 2 |} /\
  chatCompletionStream json_parse (streaming_ok (map decode example_cut))
    = Normal {| returned := [JStr "lo"];
                printed := ["lo"; String LF ""];
                reads := 3 |}.
Proof. vm_compute. repeat split. Qed.

(** Why the reads must not start with a byte-order mark: [decode] drops
    one at the start of every read and keeps it anywhere else, so a record
    behind a mark is passed over in the whole stream and decoded when a
    read starts with it. *)
Example byte_order_mark_at_a_cut :
  join marked_cut = marked_stream /\
  chatCompletionStream json_parse (streaming_ok (map decode [marked_stream]))
    = Normal {| returned := [JStr "a"]; printed := ["a"; String LF ""]; reads := 2 |} /\
  chatCompletionStream json_parse (streaming_ok (map decode marked_cut))
    = Normal {| returned := [JStr "a"; JStr "b"];
                printed := ["a"; "b"; String LF ""];
                reads := 3 |}.
Proof. vm_compute. repeat split. Qed.

(** ** C4: the end sentinel *)

(** C4, as the code has it.  Once [chatCompletionStream] or
    [agentChatStream] meets the [DONE] record in a read chunk, it decodes
    nothing more from that chunk ([break] leaves the loop over the chunk's
    lines); [sendStreamingRequest] passes over the sentinel record and
    decodes the lines after it ([continue]).  The sentinel itself never
    yields a delta. *)
Theorem C4_sentinel_ends_the_chunk
    (JSON_parse : string -> completion json)
    (before after : list string) :
  Forall (fun r => no_LF r = true) (before ++ "data: [DONE]" :: after) ->
  Forall (fun r => is_sentinel r = false) before ->
  (forall st, regular_chunk JSON_parse (chunk_of (before ++ "data: [DONE]" :: after)) st
              = regular_chunk JSON_parse (chunk_of before) st) /\
  (forall st, agent_chunk JSON_parse (chunk_of (before ++ "data: [DONE]" :: after)) st
              = agent_chunk JSON_parse (chunk_of before) st) /\
  (forall st, hook_chunk JSON_parse (chunk_of (before ++ "data: [DONE]" :: after)) st
              = hook_chunk JSON_parse (chunk_of (before ++ after)) st).
Proof.
  intros Hlf Hs.
  assert (Hb : Forall (fun r => no_LF r = true) before)
    by (apply Forall_app in Hlf as [? _]; assumption).
  assert (Hba : Forall (fun r => no_LF r = true) (before ++ after)).
  { apply Forall_app in Hlf as [? Ha]. inversion Ha; subst. now apply Forall_app. }
  repeat split; intros st.
  - rewrite !regular_chunk_records by assumption. now apply regular_break.
  - rewrite !agent_chunk_records by assumption. now apply agent_break.
  - rewrite !hook_chunk_records by assumption. now apply hook_continue.
Qed.

Lemma C4_sentinel_ends_the_chunk_witness :
  regular_chunk json_parse
    (chunk_of (firstn 2 example_records ++ "data: [DONE]" :: firstn 1 example_records))
    cli_start
  = regular_chunk json_parse (chunk_of (firstn 2 example_records)) cli_start.
Proof.
  refine (proj1 (C4_sentinel_ends_the_chunk json_parse
                   (firstn 2 example_records) (firstn 1 example_records) _ _) cli_start).
  - repeat constructor.
  - repeat constructor.
Defined.

(** C4 as stated fails: after a chunk that holds the sentinel the decoder
    reads on (three reads for two chunks) and emits the delta of the next
    chunk. *)
Lemma C4_decoding_goes_on_after_sentinel :
  chatCompletionStream json_parse
    (streaming_ok [chunk_of ["data: [DONE]"]; chunk_of [wire "data: {'content':'late'}"]])
  = Normal {| returned := [JStr "late"];
              printed := ["late"; String LF ""];
              reads := 3 |}.
Proof. vm_compute. reflexivity. Qed.

(** ** C6: content extraction *)

Section Extraction.

Variable JSON_parse : string -> completion json.

Lemma regular_content_first (parsed : json) :
  parsed <> JNull ->
  exists content,
    regular_content parsed = Normal content /\ emit content = emit (first_content parsed).
Proof.
  intros Hnn. unfold regular_content, first_content, top_content, nested_content.
  assert (Hget : forall name,
             get_prop (Some parsed) name = Normal (opt_prop (Some parsed) name)).
  { intros name. unfold opt_prop. destruct parsed; simpl; congruence. }
  rewrite !Hget. simpl.
  destruct (truthy (opt_prop (Some parsed) "content")) eqn:Htop.
  - eexists. split; [reflexivity|reflexivity].
  - eexists. split; [reflexivity|].
    unfold js_or at 2. rewrite Htop. unfold js_or.
    match goal with |- context [truthy ?n] => destruct (truthy n) eqn:Hn end.
    + reflexivity.
    + simpl. match goal with |- _ = emit ?n => destruct n; simpl in *; [now rewrite Hn|reflexivity] end.
Qed.

Lemma agent_content_top (parsed : json) :
  parsed <> JNull ->
  exists content,
    agent_content parsed = Normal content /\ emit content = emit (top_content parsed).
Proof.
  intros Hnn. unfold agent_content, top_content.
  assert (Hget : get_prop (Some parsed) "content" = Normal (opt_prop (Some parsed) "content")).
  { unfold opt_prop. destruct parsed; simpl; congruence. }
  rewrite Hget. simpl. unfold js_or.
  destruct (truthy (opt_prop (Some parsed) "content")) eqn:Htop.
  - eexists. split; reflexivity.
  - eexists. split; [reflexivity|]. simpl.
    destruct (opt_prop (Some parsed) "content"); simpl in *; [now rewrite Htop|reflexivity].
Qed.

Lemma null_or_not (parsed : json) : parsed = JNull \/ parsed <> JNull.
Proof. destruct parsed; [now left|right; discriminate..]. Qed.

Lemma emit_truthy (v : jsval) : truthy v = false -> emit v = [].
Proof. destruct v; simpl; [now intros ->|reflexivity]. Qed.

Lemma emit_some (v : jsval) : truthy v = true -> exists d, v = Some d /\ emit v = [d].
Proof. destruct v as [d|]; simpl; [intros ->; now exists d|discriminate]. Qed.

End Extraction.

Lemma emitted_truthy (v : jsval) : truthy v = false -> emitted v = [].
Proof. intros H. unfold emitted. now rewrite emit_truthy. Qed.

Lemma emitted_text (text : string) :
  text <> "" -> emitted (Some (JStr text)) = [JStr text].
Proof. intros H. unfold emitted, emit. simpl. now destruct text. Qed.

(** What the three decoders do with one record whose payload parses. *)
Section Records.

Variable JSON_parse : string -> completion json.
Variables (data : string) (parsed : json).
Hypothesis Hparse : JSON_parse data = Normal parsed.
Hypothesis Hdone : (data =? "[DONE]") = false.

Lemma regular_record (st : cli_state) :
  regular_lines JSON_parse [record_of data] st =
  match emitted (first_content parsed) with
  | [] => st
  | d :: _ =>
      fst (stdout_write (Some d)
             {| fullContent := fullContent st ++ [d]; stdout := stdout st |})
  end.
Proof.
  cbn [regular_lines]. rewrite data_of_data, Hdone.
  unfold try_catch, regular_try. rewrite Hparse.
  destruct (null_or_not parsed) as [->|Hnn]; [reflexivity|].
  destruct (regular_content_first parsed Hnn) as (content & -> & E).
  destruct (truthy content) eqn:Ht.
  - unfold emitted. rewrite <- E.
    apply emit_some in Ht as (d & -> & ->). simpl.
    now destruct (converts d).
  - unfold emitted. now rewrite <- E, emit_truthy.
Qed.

Lemma hook_record (st : hook_state) :
  hook_lines JSON_parse [record_of data] st =
  match emitted (first_content parsed) with
  | [] => st
  | d :: _ => {| hook_content := hook_content st ++ [d]; queued := S (queued st) |}
  end.
Proof.
  cbn [hook_lines]. rewrite data_of_data, Hdone.
  unfold try_catch, hook_try. rewrite Hparse.
  destruct (null_or_not parsed) as [->|Hnn]; [reflexivity|].
  destruct (regular_content_first parsed Hnn) as (content & -> & E).
  destruct (truthy content) eqn:Ht.
  - unfold emitted. rewrite <- E.
    apply emit_some in Ht as (d & -> & ->). simpl.
    now destruct (converts d).
  - unfold emitted. now rewrite <- E, emit_truthy.
Qed.

Lemma agent_record (st : cli_state) :
  agent_lines JSON_parse [record_of data] st =
  match emitted (top_content parsed) with
  | [] => st
  | d :: _ =>
      fst (stdout_write (Some d)
             {| fullContent := fullContent st ++ [d]; stdout := stdout st |})
  end.
Proof.
  cbn [agent_lines]. rewrite data_of_data, Hdone.
  unfold try_catch, agent_try. rewrite Hparse.
  destruct (null_or_not parsed) as [->|Hnn]; [reflexivity|].
  destruct (agent_content_top parsed Hnn) as (content & -> & E).
  destruct (truthy content) eqn:Ht.
  - unfold emitted. rewrite <- E.
    apply emit_some in Ht as (d & -> & ->). simpl.
    now destruct (converts d).
  - unfold emitted. now rewrite <- E, emit_truthy.
Qed.

End Records.

Lemma emitted_one (v : jsval) (d : json) (rest : list json) :
  emitted v = d :: rest -> rest = [].
Proof.
  unfold emitted, emit. destruct v as [x|]; [|discriminate].
  destruct (truthy (Some x)); [|discriminate]. simpl.
  destruct (converts x); congruence.
Qed.

(** C6, as the code has it.  For a record [data: <payload>] whose payload
    parses as JSON, [chatCompletionStream] and [sendStreamingRequest] take
    the delta from the field paths in priority order, the top-level
    [content] first and [choices[0].delta.content] when that is missing or
    empty, and [agentChatStream] takes it from the top-level [content].
    The extracted value is appended when it is truthy and its string
    conversion succeeds (a text that is not empty always is, and is
    printed as well); a value whose conversion throws is dropped by the
    [catch] block, and an extracted text that is empty (falsy) is skipped:
    the decoder's state is left as it was. *)
Theorem C6_field_paths_in_priority_order
    (JSON_parse : string -> completion json) (data : string) (parsed : json) :
  JSON_parse data = Normal parsed ->
  (data =? "[DONE]") = false ->
  (truthy (top_content parsed) = true -> first_content parsed = top_content parsed) /\
  (truthy (top_content parsed) = false -> first_content parsed = nested_content parsed) /\
  (forall st, fullContent (regular_lines JSON_parse [record_of data] st)
              = fullContent st ++ emitted (first_content parsed)) /\
  (forall st, hook_content (hook_lines JSON_parse [record_of data] st)
              = hook_content st ++ emitted (first_content parsed)) /\
  (forall st, fullContent (agent_lines JSON_parse [record_of data] st)
              = fullContent st ++ emitted (top_content parsed)) /\
  (forall text, first_content parsed = Some (JStr text) -> text <> "" ->
   forall st st',
     regular_lines JSON_parse [record_of data] st
       = {| fullContent := fullContent st ++ [JStr text];
            stdout := stdout st ++ [text] |} /\
     hook_lines JSON_parse [record_of data] st'
       = {| hook_content := hook_content st' ++ [JStr text];
            queued := S (queued st') |}) /\
  (forall text, top_content parsed = Some (JStr text) -> text <> "" ->
   forall st,
     agent_lines JSON_parse [record_of data] st
       = {| fullContent := fullContent st ++ [JStr text];
            stdout := stdout st ++ [text] |}) /\
  (truthy (first_content parsed) = false ->
   forall st st', regular_lines JSON_parse [record_of data] st = st /\
                  hook_lines JSON_parse [record_of data] st' = st') /\
  (truthy (top_content parsed) = false ->
   forall st, agent_lines JSON_parse [record_of data] st = st).
Proof.
  intros Hparse Hdone.
  pose proof (regular_record JSON_parse data parsed Hparse Hdone) as Hreg.
  pose proof (hook_record JSON_parse data parsed Hparse Hdone) as Hhook.
  pose proof (agent_record JSON_parse data parsed Hparse Hdone) as Hagent.
  split; [|split; [|split; [|split; [|split; [|split; [|split; [|split]]]]]]].
  - unfold first_content. now intros ->.
  - unfold first_content. now intros ->.
  - intros st. rewrite Hreg. destruct (emitted (first_content parsed)) as [|d rest] eqn:E.
    + now rewrite app_nil_r.
    + rewrite (emitted_one _ _ _ E). now destruct d.
  - intros st. rewrite Hhook. destruct (emitted (first_content parsed)) as [|d rest] eqn:E.
    + now rewrite app_nil_r.
    + now rewrite (emitted_one _ _ _ E).
  - intros st. rewrite Hagent. destruct (emitted (top_content parsed)) as [|d rest] eqn:E.
    + now rewrite app_nil_r.
    + rewrite (emitted_one _ _ _ E). now destruct d.
  - intros text E Htext st st'. rewrite Hreg, Hhook, E, (emitted_text _ Htext).
    split; reflexivity.
  - intros text E Htext st. rewrite Hagent, E, (emitted_text _ Htext). reflexivity.
  - intros Ht st st'. rewrite Hreg, Hhook. now rewrite emitted_truthy.
  - intros Ht st. rewrite Hagent. now rewrite emitted_truthy.
Qed.

Lemma C6_field_paths_in_priority_order_witness :
  regular_lines json_parse [record_of nested_payload] cli_start
    = {| fullContent := fullContent cli_start ++ [JStr "x"];
         stdout := stdout cli_start ++ ["x"] |} /\
  hook_lines json_parse [record_of nested_payload] {| hook_content := []; queued := 0 |}
    = {| hook_content := [] ++ [JStr "x"]; queued := 1 |}.
Proof.
  refine (proj1 (proj2 (proj2 (proj2 (proj2 (proj2
            (C6_field_paths_in_priority_order json_parse nested_payload
               (JObj [("choices", JArr [JObj [("delta", JObj [("content", JStr "x")])]])])
               _ _))))))
            "x" _ _ cli_start {| hook_content := []; queued := 0 |}).
  - vm_compute. reflexivity.
  - reflexivity.
  - reflexivity.
  - discriminate.
Defined.

(** C6 as stated fails for [agentChatStream], which has no second field
    path: a record in the nested shape gives it no delta, where
    [chatCompletionStream] extracts "x". *)
Lemma C6_agent_has_no_nested_path :
  agentChatStream json_parse (streaming_ok [chunk_of [record_of nested_payload]])
  = Normal {| returned := []; printed := [String LF ""]; reads := 2 |} /\
  chatCompletionStream json_parse (streaming_ok [chunk_of [record_of nested_payload]])
  = Normal {| returned := [JStr "x"]; printed := ["x"; String LF ""]; reads := 2 |}.
Proof. vm_compute. split; reflexivity. Qed.

(** A truthy value whose string conversion throws, the object
    [{"toString":null}], is extracted and then dropped: nothing is
    appended. *)
Example unconvertible_delta_dropped :
  chatCompletionStream json_parse
    (streaming_ok [chunk_of [wire "data: {'content':{'toString':null}}"]])
  = Normal {| returned := []; printed := [String LF ""]; reads := 2 |} /\
  sendStreamingRequest json_parse
    (streaming_ok [chunk_of [wire "data: {'content':{'toString':null}}"]])
  = Normal {| final_message := []; updates := 0; hook_reads := 2 |}.
Proof. vm_compute. split; reflexivity. Qed.

(** ** C7: malformed records *)

(** C7.  A record whose payload [JSON.parse] rejects is passed over: the
    line loop ends in the state it would have reached without that line,
    and a session in which some read holds the malformed record runs
    exactly as the session without that record, whatever the reads before
    and after it hold.  The delta of a valid record after it is still
    delivered: a read that holds the malformed record and then a record
    with the text [text] makes [chatCompletionStream] return and print
    exactly [text] and the hook accumulate it.  On a body stream that ends
    without a transport failure both decoders return normally whatever the
    chunks hold. *)
Theorem C7_malformed_record_skipped
    (JSON_parse : string -> completion json)
    (payload : string) (e : js_error) (before after : list string) :
  JSON_parse payload = Throw e ->
  (payload =? "[DONE]") = false ->
  no_LF payload = true ->
  (forall st, regular_lines JSON_parse (before ++ record_of payload :: after) st
              = regular_lines JSON_parse (before ++ after) st) /\
  (forall st, hook_lines JSON_parse (before ++ record_of payload :: after) st
              = hook_lines JSON_parse (before ++ after) st) /\
  (forall earlier later,
      Forall (fun r => no_LF r = true) (before ++ after) ->
      chatCompletionStream JSON_parse
        (streaming_ok (earlier ++ chunk_of (before ++ record_of payload :: after) :: later))
      = chatCompletionStream JSON_parse
          (streaming_ok (earlier ++ chunk_of (before ++ after) :: later)) /\
      sendStreamingRequest JSON_parse
        (streaming_ok (earlier ++ chunk_of (before ++ record_of payload :: after) :: later))
      = sendStreamingRequest JSON_parse
          (streaming_ok (earlier ++ chunk_of (before ++ after) :: later))) /\
  (forall good parsed text,
      JSON_parse good = Normal parsed ->
      (good =? "[DONE]") = false ->
      no_LF good = true ->
      first_content parsed = Some (JStr text) ->
      text <> "" ->
      chatCompletionStream JSON_parse
        (streaming_ok [chunk_of [record_of payload; record_of good]])
      = Normal {| returned := [JStr text];
                  printed := [text; String LF ""];
                  reads := 2 |} /\
      sendStreamingRequest JSON_parse
        (streaming_ok [chunk_of [record_of payload; record_of good]])
      = Normal {| final_message := [JStr text]; updates := 1; hook_reads := 2 |}) /\
  (forall chunks, exists run,
      chatCompletionStream JSON_parse (streaming_ok chunks) = Normal run) /\
  (forall chunks, exists run,
      sendStreamingRequest JSON_parse (streaming_ok chunks) = Normal run).
Proof.
  intros Hbad Hdone Hlf.
  assert (Hreg : forall before after st,
    regular_lines JSON_parse (before ++ record_of payload :: after) st
    = regular_lines JSON_parse (before ++ after) st).
  { clear before after. intros before after.
    induction before as [|l before IH]; intros st.
    + cbn [app regular_lines]. rewrite data_of_data, Hdone.
      unfold try_catch, regular_try. now rewrite Hbad.
    + cbn [app regular_lines].
      destruct (data_of l) as [d|]; [destruct (d =? "[DONE]")|]; auto. }
  assert (Hhook : forall before after st,
    hook_lines JSON_parse (before ++ record_of payload :: after) st
    = hook_lines JSON_parse (before ++ after) st).
  { clear before after. intros before after.
    induction before as [|l before IH]; intros st.
    + cbn [app hook_lines]. rewrite data_of_data, Hdone.
      unfold try_catch, hook_try. now rewrite Hbad.
    + cbn [app hook_lines].
      destruct (data_of l) as [d|]; [destruct (d =? "[DONE]")|]; auto. }
  split; [apply Hreg|]. split; [apply Hhook|]. split; [|split; [|split]].
  - intros earlier later Hrest.
    assert (Hall : Forall (fun r => no_LF r = true) (before ++ record_of payload :: after)).
    { apply Forall_app in Hrest as [Hb Ha]. apply Forall_app. split; [exact Hb|].
      constructor; [exact Hlf|exact Ha]. }
    unfold chatCompletionStream, sendStreamingRequest, streaming_ok.
    cbn [ok has_body body body_fails negb]. rewrite !read_loop_done.
    rewrite !fold_left_app. cbn [fold_left bind].
    rewrite !regular_chunk_records, !hook_chunk_records by assumption.
    rewrite Hreg, Hhook, !length_app. split; reflexivity.
  - intros good parsed text Hparse Hgood Hlf' Hfirst Htext.
    assert (Hrecords : Forall (fun r => no_LF r = true) [record_of payload; record_of good]).
    { repeat constructor; assumption. }
    split.
    + unfold chatCompletionStream, streaming_ok.
      cbn [ok has_body body body_fails negb]. rewrite read_loop_done.
      cbn [fold_left bind]. rewrite regular_chunk_records by exact Hrecords.
      rewrite (Hreg [] [record_of good]). cbn [app].
      rewrite (regular_record JSON_parse good parsed Hparse Hgood).
      rewrite Hfirst, (emitted_text _ Htext). reflexivity.
    + unfold sendStreamingRequest, streaming_ok.
      cbn [ok has_body body body_fails negb]. rewrite read_loop_done.
      cbn [fold_left bind]. rewrite hook_chunk_records by exact Hrecords.
      rewrite (Hhook [] [record_of good]). cbn [app].
      rewrite (hook_record JSON_parse good parsed Hparse Hgood).
      rewrite Hfirst, (emitted_text _ Htext). reflexivity.
  - intros chunks. unfold chatCompletionStream. simpl.
    rewrite read_loop_done. simpl. eauto.
  - intros chunks. unfold sendStreamingRequest. simpl.
    rewrite read_loop_done. simpl. eauto.
Qed.

Lemma C7_malformed_record_skipped_witness :
  chatCompletionStream json_parse
    (streaming_ok [chunk_of [record_of malformed_payload;
                             record_of (wire "{'content':'Hel'}")]])
  = Normal {| returned := [JStr "Hel"];
              printed := ["Hel"; String LF ""];
              reads := 2 |} /\
  sendStreamingRequest json_parse
    (streaming_ok [chunk_of [record_of malformed_payload;
                             record_of (wire "{'content':'Hel'}")]])
  = Normal {| final_message := [JStr "Hel"]; updates := 1; hook_reads := 2 |}.
Proof.
  refine (proj1 (proj2 (proj2 (proj2
            (C7_malformed_record_skipped json_parse malformed_payload SyntaxError
               [] [] _ _ _))))
            (wire "{'content':'Hel'}") (JObj [("content", JStr "Hel")]) "Hel"
            _ _ _ _ _).
  - vm_compute. reflexivity.
  - reflexivity.
  - reflexivity.
  - vm_compute. reflexivity.
  - reflexivity.
  - reflexivity.
  - reflexivity.
  - discriminate.
Defined.

(** The spec's test stream: the malformed line, then a valid delta. *)
Example malformed_then_valid :
  chatCompletionStream json_parse
    (streaming_ok [chunk_of (record_of malformed_payload :: example_records)])
  = Normal {| returned := [JStr "Hel"; JStr "lo"];
              printed := ["Hel"; "lo"; String LF ""];
              reads := 2 |}.
Proof. vm_compute. reflexivity. Qed.

(** ** The relay's response log *)

Lemma pipe_log (events : list stream_event) (log : list res_event) :
  pipe events log = log ++ map event_of events.
Proof.
  unfold pipe. revert log. induction events as [|ev evs IH]; intros log; simpl.
  - now rewrite app_nil_r.
  - rewrite IH. destruct ev; simpl; now rewrite <- app_assoc.
Qed.

Lemma pipe_whole (chunks : list string) (ending : stream_end) (log : list res_event) :
  pipe (events_of chunks ending) log = log ++ map Write chunks ++ [End].
Proof.
  rewrite pipe_log. unfold events_of. rewrite map_app, map_map. simpl.
  now destruct ending.
Qed.

Lemma written_app (a b : list res_event) : written (a ++ b) = written a ++ written b.
Proof.
  induction a as [|ev a IH]; [reflexivity|].
  destruct ev; simpl; now rewrite IH.
Qed.

Lemma written_writes (chunks : list string) : written (map Write chunks) = chunks.
Proof. induction chunks as [|c cs IH]; simpl; congruence. Qed.

Lemma firstn_succ_app {A} (n : nat) (l : list A) :
  exists ext, firstn (S n) l = firstn n l ++ ext.
Proof.
  revert l. induction n as [|n IH]; intros [|x l].
  - now exists [].
  - now exists [x].
  - now exists [].
  - destruct (IH l) as [ext E]. exists ext.
    change (firstn (S (S n)) (x :: l)) with (x :: firstn (S n) l). now rewrite E.
Qed.

(** Where a log made of the streaming headers and more holds a write, the
    headers precede it. *)
Lemma headers_lead (more pre post : list res_event) (chunk : string) :
  sse_headers ++ more = pre ++ Write chunk :: post ->
  exists rest, pre = sse_headers ++ rest.
Proof.
  unfold sse_headers. intros E.
  destruct pre as [|e1 [|e2 [|e3 rest]]]; simpl in E; try discriminate.
  injection E as -> -> -> _. now exists rest.
Qed.

Lemma validation_is_array (messages : jsval) :
  invalid_messages messages = negb (isArray messages).
Proof.
  unfold invalid_messages. destruct messages as [[]|]; simpl; now rewrite ?orb_true_r.
Qed.

Lemma valid_has_body (req : request) :
  invalid_messages (assoc "messages" (req_body req)) = false ->
  nullish (json_body req) = false.
Proof.
  unfold req_body. intros H.
  destruct (json_body req) as [[]|]; try reflexivity; cbv in H; discriminate.
Qed.

Lemma array_has_body (req : request) (items : list json) :
  assoc "messages" (req_body req) = Some (JArr items) ->
  nullish (json_body req) = false.
Proof.
  unfold req_body. intros H.
  destruct (json_body req) as [[]|]; try reflexivity; cbv in H; discriminate.
Qed.

(** The response log of a streaming session whose upstream call was
    answered with a body stream. *)
Lemma stream_session_log (KEY : string) (upstream : upstream_call -> axios_outcome)
    (req : request) (chunks : list string) (ending : stream_end) :
  invalid_messages (assoc "messages" (req_body req)) = false ->
  upstream (chat_call KEY req true) = Fulfilled (Stream chunks ending) ->
  sent (post_api_chat_stream KEY upstream req) = sse_headers ++ map Write chunks ++ [End] /\
  (forall n, sent (post_api_chat_stream_upto KEY upstream n req)
             = sse_headers ++ map event_of (firstn n (events_of chunks ending))).
Proof.
  intros Hvalid Hup. split.
  - unfold post_api_chat_stream.
    rewrite (valid_has_body _ Hvalid), Hvalid, Hup. simpl sent. apply pipe_whole.
  - intros n. unfold post_api_chat_stream_upto.
    rewrite (valid_has_body _ Hvalid), Hvalid, Hup. simpl sent. apply pipe_log.
Qed.

(** ** C1: streamed against buffered content *)

(** C1.  Take a request that passes validation and a stub upstream that
    serves one content in both modes: it answers the buffered call with
    [content] as its first choice and the streaming call with a body
    stream whose records carry deltas that concatenate to [content].  The
    streaming path writes the upstream's chunks to the client unchanged
    and in order, so the deltas of the framing it delivers (the text
    inside each [data:] record, decoded as the specification says)
    concatenate to the [content] field of the buffered path's reply.  The
    content delivered within a session is monotonic: each upstream event
    only appends to the response. *)
Theorem C1_streamed_deltas_join_to_buffered_content
    (KEY : string) (upstream : upstream_call -> axios_outcome)
    (JSON_parse : string -> completion json)
    (req : request) (chunks : list string) (ending : stream_end)
    (answer : response_data) (content : string) :
  invalid_messages (assoc "messages" (req_body req)) = false ->
  upstream (chat_call KEY req true) = Fulfilled (Stream chunks ending) ->
  upstream (chat_call KEY req false) = Fulfilled answer ->
  first_choice_content answer = Normal (Some (JStr content)) ->
  join (spec_deltas JSON_parse (join chunks)) = content ->
  written (sent (post_api_chat_stream KEY upstream req)) = chunks /\
  delivered (sent (post_api_chat_stream KEY upstream req)) = join chunks /\
  join (spec_deltas JSON_parse (delivered (sent (post_api_chat_stream KEY upstream req))))
    = content /\
  reply_content (sent (post_api_chat KEY upstream req)) = Some (JStr content) /\
  (forall n : nat, exists ext : list res_event,
      sent (post_api_chat_stream_upto KEY upstream (S n) req)
        = sent (post_api_chat_stream_upto KEY upstream n req) ++ ext /\
      delivered (sent (post_api_chat_stream_upto KEY upstream (S n) req))
        = (delivered (sent (post_api_chat_stream_upto KEY upstream n req))
           ++ join (written ext))%string).
Proof.
  intros Hvalid Hup Hbuf Hcontent Hsame.
  destruct (stream_session_log KEY upstream req chunks ending Hvalid Hup) as [Hsent Hupto].
  assert (Hwritten : written (sent (post_api_chat_stream KEY upstream req)) = chunks).
  { rewrite Hsent, !written_app, written_writes. simpl. apply app_nil_r. }
  split; [exact Hwritten|]. split; [unfold delivered; now rewrite Hwritten|].
  split; [unfold delivered; now rewrite Hwritten|]. split.
  - unfold post_api_chat.
    rewrite (valid_has_body _ Hvalid), Hvalid, Hbuf, Hcontent. reflexivity.
  - intros n. rewrite !Hupto.
    destruct (firstn_succ_app n (events_of chunks ending)) as [ext Hext].
    exists (map event_of ext). rewrite Hext, map_app, app_assoc.
    split; [reflexivity|]. unfold delivered. now rewrite written_app, join_app.
Qed.

Lemma C1_streamed_deltas_join_to_buffered_content_witness :
  join (spec_deltas json_parse
          (delivered (sent (post_api_chat_stream "dflt" hello_upstream hello_request))))
    = "Hello" /\
  reply_content (sent (post_api_chat "dflt" hello_upstream hello_request))
    = Some (JStr "Hello").
Proof.
  refine (let H := C1_streamed_deltas_join_to_buffered_content "dflt" hello_upstream
                     json_parse hello_request _ StreamEnd _ "Hello" _ _ _ _ _ in
          conj (proj1 (proj2 (proj2 H))) (proj1 (proj2 (proj2 (proj2 H))))).
  - reflexivity.
  - reflexivity.
  - reflexivity.
  - reflexivity.
  - vm_compute. reflexivity.
Defined.

(** ** C2: validation before the upstream call *)

(** C2, as the code has it.  A request with a JSON body whose [messages]
    is absent or is not an array is answered with HTTP 400 by both
    endpoints, with no call to the upstream and, on the streaming
    endpoint, before any header is set.  A request that left [req.body]
    undefined fails in the destructuring and is answered with HTTP 500 by
    the [catch] block, with no call to the upstream either.  The
    validation tests for an array, not for a non-empty one, so every array
    passes it and is forwarded in one upstream call. *)
Theorem C2_messages_must_be_an_array
    (KEY : string) (upstream : upstream_call -> axios_outcome) (req : request) :
  nullish (json_body req) = false ->
  isArray (assoc "messages" (req_body req)) = false ->
  post_api_chat KEY upstream req
    = {| sent := bad_request; upstream_calls := []; rejected := false |} /\
  post_api_chat_stream KEY upstream req
    = {| sent := bad_request; upstream_calls := []; rejected := false |} /\
  bad_request = [Status 400; Json (JObj [("error", JStr "messages array is required")])] /\
  (forall req' : request,
      nullish (json_body req') = true ->
      post_api_chat KEY upstream req'
        = {| sent := [Status 500; Json (JObj [("error", JStr "Internal server error")])];
             upstream_calls := []; rejected := false |} /\
      post_api_chat_stream KEY upstream req'
        = {| sent := [Status 500; Json (JObj [("error", JStr "Internal server error")])];
             upstream_calls := []; rejected := false |}) /\
  (forall (req' : request) (items : list json),
      assoc "messages" (req_body req') = Some (JArr items) ->
      upstream_calls (post_api_chat KEY upstream req') = [chat_call KEY req' false] /\
      upstream_calls (post_api_chat_stream KEY upstream req') = [chat_call KEY req' true]).
Proof.
  intros Hbody Harr. split; [|split; [|split; [reflexivity|split]]].
  - unfold post_api_chat. now rewrite Hbody, validation_is_array, Harr.
  - unfold post_api_chat_stream. now rewrite Hbody, validation_is_array, Harr.
  - intros req' Hnone. unfold post_api_chat, post_api_chat_stream.
    rewrite Hnone. split; reflexivity.
  - intros req' items Hitems. split.
    + unfold post_api_chat. rewrite (array_has_body _ _ Hitems), Hitems. simpl.
      destruct (upstream _) as [data|[[code data]|]];
        [destruct (first_choice_content data)| |]; try reflexivity.
      now destruct (data_prop data "error").
    + unfold post_api_chat_stream. rewrite (array_has_body _ _ Hitems), Hitems. simpl.
      now destruct (upstream _) as [[]|].
Qed.

Lemma C2_messages_must_be_an_array_witness :
  post_api_chat "dflt" hello_upstream {| headers := empty; json_body := Some (JObj []) |}
    = {| sent := bad_request; upstream_calls := []; rejected := false |} /\
  post_api_chat_stream "dflt" hello_upstream {| headers := empty; json_body := None |}
    = {| sent := [Status 500; Json (JObj [("error", JStr "Internal server error")])];
         upstream_calls := []; rejected := false |}.
Proof.
  pose proof (C2_messages_must_be_an_array "dflt" hello_upstream
                {| headers := empty; json_body := Some (JObj []) |}
                eq_refl eq_refl) as H.
  split; [exact (proj1 H)|].
  exact (proj2 (proj1 (proj2 (proj2 (proj2 H)))
                  {| headers := empty; json_body := None |} eq_refl)).
Defined.

(** C2 as stated fails for the empty array: both endpoints accept it and
    call the upstream once. *)
Lemma C2_empty_array_reaches_upstream :
  upstream_calls (post_api_chat "dflt" hello_upstream empty_messages_request)
    = [chat_call "dflt" empty_messages_request false] /\
  sent (post_api_chat "dflt" hello_upstream empty_messages_request)
    = [Json (JObj [("content", JStr "Hello"); ("model", JStr "gpt-4o")])] /\
  upstream_calls (post_api_chat_stream "dflt" hello_upstream empty_messages_request)
    = [chat_call "dflt" empty_messages_request true] /\
  sent (post_api_chat_stream "dflt" hello_upstream empty_messages_request)
    <> bad_request.
Proof. vm_compute. repeat split. discriminate. Qed.

(** ** C5: an upstream refusal before the first byte *)

(** The buffered path passes an upstream refusal on: the upstream's status
    code, and the upstream's [error] text when its body carries one. *)
Lemma buffered_passes_refusal_on
    (KEY : string) (upstream : upstream_call -> axios_outcome) (req : request)
    (code : Z) (answer : list (string * json)) (text : json) :
  invalid_messages (assoc "messages" (req_body req)) = false ->
  upstream (chat_call KEY req false) = Rejected (Some (code, Parsed (Some (JObj answer)))) ->
  assoc "error" answer = Some text ->
  truthy (Some text) = true ->
  sent (post_api_chat KEY upstream req) = [Status code; Json (JObj [("error", text)])].
Proof.
  intros Hvalid Hup Herr Ht. unfold post_api_chat.
  rewrite (valid_has_body _ Hvalid), Hvalid, Hup. simpl.
  rewrite Herr. unfold js_or. now rewrite Ht.
Qed.

(** The streaming path does not: whatever the upstream refused with, its
    [catch] block answers 500 "Internal server error". *)
Lemma streaming_replaces_refusal
    (KEY : string) (upstream : upstream_call -> axios_outcome) (req : request)
    (response : option (Z * response_data)) :
  invalid_messages (assoc "messages" (req_body req)) = false ->
  upstream (chat_call KEY req true) = Rejected response ->
  sent (post_api_chat_stream KEY upstream req) = sse_headers ++ internal_error.
Proof.
  intros Hvalid Hup. unfold post_api_chat_stream.
  now rewrite (valid_has_body _ Hvalid), Hvalid, Hup.
Qed.

(** C5 at the spec's test: against the stub that refuses with HTTP 429 and
    [{"error":"rate limited"}], the buffered path answers 429 with that
    text, the streaming path answers 500 with a text of its own. *)
Theorem C5_rate_limited_upstream :
  sent (post_api_chat "dflt" rate_limited_upstream hello_request)
    = [Status 429; Json (JObj [("error", JStr "rate limited")])] /\
  sent (post_api_chat_stream "dflt" rate_limited_upstream hello_request)
    = sse_headers ++ [Status 500; Json (JObj [("error", JStr "Internal server error")])].
Proof. split; reflexivity. Qed.

(** ** C8: errors once streaming has begun *)

Lemma no_json_in_writes (log : list res_event) (chunks : list string) (payload : json) :
  ~ In (Json payload) log ->
  ~ In (Json payload) (log ++ map Write chunks ++ [End]).
Proof.
  intros Hlog Hin. apply in_app_or in Hin as [Hin|Hin]; [auto|].
  apply in_app_or in Hin as [Hin|[Hin|[]]]; [|discriminate].
  apply in_map_iff in Hin as (c & [=] & _).
Qed.

(** C8.  When the upstream's body stream breaks, after any number of
    chunks written to the client, the session writes those chunks and ends
    the response: no JSON body and no status is put on it.  The [catch]
    block of the streaming handler, reached with the head of the response
    already sent, only ends the response too. *)
Theorem C8_stream_error_closes_silently
    (KEY : string) (upstream : upstream_call -> axios_outcome)
    (req : request) (chunks : list string) :
  invalid_messages (assoc "messages" (req_body req)) = false ->
  upstream (chat_call KEY req true) = Fulfilled (Stream chunks StreamError) ->
  sent (post_api_chat_stream KEY upstream req) = sse_headers ++ map Write chunks ++ [End] /\
  (forall payload, ~ In (Json payload) (sent (post_api_chat_stream KEY upstream req))) /\
  (forall code, ~ In (Status code) (sent (post_api_chat_stream KEY upstream req))) /\
  (forall log, headersSent log = true -> stream_catch log = log ++ [End]).
Proof.
  intros Hvalid Hup.
  destruct (stream_session_log KEY upstream req chunks StreamError Hvalid Hup)
    as [Hsent _].
  split; [exact Hsent|]. rewrite Hsent. repeat split.
  - intros payload. apply no_json_in_writes. unfold sse_headers. simpl. intuition discriminate.
  - intros code Hin. apply in_app_or in Hin as [Hin|Hin].
    + unfold sse_headers in Hin. simpl in Hin. intuition discriminate.
    + apply in_app_or in Hin as [Hin|[Hin|[]]]; [|discriminate].
      apply in_map_iff in Hin as (c & [=] & _).
  - intros log Hhead. unfold stream_catch. now rewrite Hhead.
Qed.

Lemma C8_stream_error_closes_silently_witness :
  sent (post_api_chat_stream "dflt" dropping_upstream hello_request)
  = sse_headers ++ map Write (map chunk_of [firstn 1 example_records]) ++ [End].
Proof.
  refine (proj1 (C8_stream_error_closes_silently "dflt" dropping_upstream
                   hello_request _ _ _)).
  - reflexivity.
  - reflexivity.
Defined.

(** ** C9: headers before the first write *)

(** C9.  In a streaming session whose request passes validation and whose
    upstream call is answered with a body stream, the handler sets the
    three streaming headers (content type [text/event-stream], no caching,
    connection kept alive) first: at every point of the session the
    response log is these three headers followed by what the upstream's
    events so far have caused, and the whole session is the headers, the
    chunks written and the end, also when the stream holds no chunk.  So
    every write is preceded by the three headers. *)
Theorem C9_headers_before_first_write
    (KEY : string) (upstream : upstream_call -> axios_outcome)
    (req : request) (chunks : list string) (ending : stream_end) :
  invalid_messages (assoc "messages" (req_body req)) = false ->
  upstream (chat_call KEY req true) = Fulfilled (Stream chunks ending) ->
  (forall n,
      sent (post_api_chat_stream_upto KEY upstream n req)
      = [SetHeader "Content-Type" "text/event-stream";
         SetHeader "Cache-Control" "no-cache";
         SetHeader "Connection" "keep-alive"]
        ++ map event_of (firstn n (events_of chunks ending))) /\
  sent (post_api_chat_stream KEY upstream req)
  = [SetHeader "Content-Type" "text/event-stream";
     SetHeader "Cache-Control" "no-cache";
     SetHeader "Connection" "keep-alive"]
    ++ map Write chunks ++ [End] /\
  (forall n pre post chunk,
      sent (post_api_chat_stream_upto KEY upstream n req) = pre ++ Write chunk :: post
      \/ sent (post_api_chat_stream KEY upstream req) = pre ++ Write chunk :: post ->
      exists rest,
        pre = [SetHeader "Content-Type" "text/event-stream";
               SetHeader "Cache-Control" "no-cache";
               SetHeader "Connection" "keep-alive"] ++ rest).
Proof.
  intros Hvalid Hup.
  destruct (stream_session_log KEY upstream req chunks ending Hvalid Hup) as [Hsent Hupto].
  split; [exact Hupto|]. split; [exact Hsent|].
  intros n pre post chunk [E|E].
  - rewrite Hupto in E. eapply headers_lead. exact E.
  - rewrite Hsent in E. eapply headers_lead. exact E.
Qed.

Lemma C9_headers_before_first_write_witness :
  sent (post_api_chat_stream "dflt" hello_upstream hello_request)
  = [SetHeader "Content-Type" "text/event-stream";
     SetHeader "Cache-Control" "no-cache";
     SetHeader "Connection" "keep-alive"]
    ++ map Write (map chunk_of [firstn 1 example_records;
                                firstn 1 (skipn 1 example_records);
                                skipn 2 example_records]) ++ [End].
Proof.
  refine (proj1 (proj2 (C9_headers_before_first_write "dflt" hello_upstream
                          hello_request _ StreamEnd _ _))).
  - reflexivity.
  - reflexivity.
Defined.

(** ** C10: the credential sent upstream *)

Lemma header_truthy_value (v : string) : v <> "" -> header_truthy (Some v) = true.
Proof. intros H. simpl. now apply String.eqb_neq in H as ->. Qed.

Lemma getApiKey_chosen (KEY : string) (req : request) (v : string) :
  header_or (headers req !! "x-api-key") (headers req !! "authorization") = Some v ->
  v <> "" ->
  getApiKey KEY req = bearer_token v.
Proof.
  intros Hc Hv. unfold getApiKey, bearer_token. rewrite Hc.
  rewrite (header_truthy_value v Hv). simpl. now destruct (startsWith v "Bearer ").
Qed.

(** A header sent with an empty value is passed over by [||] like a
    missing one. *)
Lemma getApiKey_empty_value (KEY : string) (req : request) :
  headers req !! "x-api-key" = Some "" ->
  getApiKey KEY req =
  match headers req !! "authorization" with
  | Some a => if a =? "" then KEY else bearer_token a
  | None => KEY
  end.
Proof.
  intros Hx. unfold getApiKey, bearer_token, header_or. rewrite Hx. simpl.
  destruct (headers req !! "authorization") as [a|]; [|reflexivity].
  simpl. destruct (a =? ""); simpl; [reflexivity|].
  now destruct (startsWith a "Bearer ").
Qed.

(** C10, as the code has it.  [getApiKey] is a function of the two headers
    and the default key, and a header counts when it carries a value that
    is not empty: such an [x-api-key] header decides the credential
    whatever [Authorization] holds; when [x-api-key] is missing or empty,
    such an [Authorization] header does; the chosen value loses a leading
    ["Bearer "] (7 characters) and is otherwise used as it is; when each
    header is missing or empty the process-wide default key is used. *)
Theorem C10_credential_choice (KEY : string) (req : request) :
  (forall k, headers req !! "x-api-key" = Some k -> k <> "" ->
             getApiKey KEY req = bearer_token k) /\
  (forall a, header_truthy (headers req !! "x-api-key") = false ->
             headers req !! "authorization" = Some a -> a <> "" ->
             getApiKey KEY req = bearer_token a) /\
  (header_truthy (headers req !! "x-api-key") = false ->
   header_truthy (headers req !! "authorization") = false ->
   getApiKey KEY req = KEY) /\
  (forall v, header_truthy v = false <-> v = None \/ v = Some "") /\
  (forall token, bearer_token ("Bearer " ++ token) = token) /\
  (forall value, startsWith value "Bearer " = false -> bearer_token value = value).
Proof.
  split; [|split; [|split; [|split; [|split]]]].
  - intros k Hk Hne. apply getApiKey_chosen; [|exact Hne].
    rewrite Hk. unfold header_or. now rewrite (header_truthy_value k Hne).
  - intros a Hx Ha Hne. apply getApiKey_chosen; [|exact Hne].
    unfold header_or. now rewrite Hx, Ha.
  - intros Hx Ha. unfold getApiKey, header_or. rewrite Hx.
    destruct (headers req !! "authorization") as [a|]; [|reflexivity].
    now rewrite Ha.
  - intros [v|]; simpl.
    + destruct (String.eqb_spec v ""); simpl; split; intros H;
        try discriminate; try reflexivity.
      * right. now subst.
      * destruct H as [H|[= H]]; [discriminate|contradiction].
    + split; [now left|reflexivity].
  - intros token. reflexivity.
  - intros value Hv. unfold bearer_token. now rewrite Hv.
Qed.

Lemma C10_credential_choice_witness :
  getApiKey "dflt" both_headers_request = "k-1" /\
  getApiKey "dflt" authorization_request = "raw-token" /\
  getApiKey "dflt" hello_request = "dflt".
Proof.
  split; [|split].
  - refine (proj1 (C10_credential_choice "dflt" both_headers_request) "Bearer k-1" _ _).
    + reflexivity.
    + discriminate.
  - refine (proj1 (proj2 (C10_credential_choice "dflt" authorization_request))
              "raw-token" _ _ _).
    + reflexivity.
    + reflexivity.
    + discriminate.
  - refine (proj1 (proj2 (proj2 (C10_credential_choice "dflt" hello_request))) _ _).
    + reflexivity.
    + reflexivity.
Defined.

(** C10 as stated fails for a header sent with an empty value: an empty
    [x-api-key] does not take precedence, the [Authorization] header
    decides; and an empty [Authorization] header alone is not used as it
    is, the default key is. *)
Lemma C10_empty_header_is_passed_over :
  headers empty_key_request !! "x-api-key" = Some "" /\
  getApiKey "dflt" empty_key_request = "a-2" /\
  headers empty_authorization_request !! "x-api-key" = None /\
  headers empty_authorization_request !! "authorization" = Some "" /\
  getApiKey "dflt" empty_authorization_request = "dflt".
Proof. vm_compute. repeat split. Qed.

(* ================================================================== *)
(** * Further properties of the decoders *)
(* ================================================================== *)

Section DecoderRuns.

Variable JSON_parse : string -> completion json.

(** ** Reads, transport failures, refused requests *)

(** X1.  On a body stream that ends without failure each decoder calls
    [reader.read()] once per chunk and once more to learn that the stream
    is done, whatever the chunks hold, an end sentinel included. *)
Theorem decoders_read_until_done (response : fetch_response) :
  ok response = true ->
  has_body response = true ->
  body_fails response = false ->
  (exists run, chatCompletionStream JSON_parse response = Normal run /\
               reads run = S (length (body response))) /\
  (exists run, agentChatStream JSON_parse response = Normal run /\
               reads run = S (length (body response))) /\
  (exists run, sendStreamingRequest JSON_parse response = Normal run /\
               hook_reads run = S (length (body response))).
Proof.
  intros Hok Hbody Hfails.
  unfold chatCompletionStream, agentChatStream, sendStreamingRequest.
  rewrite Hok, Hbody, Hfails. simpl. rewrite !read_loop_done. simpl.
  repeat split; eexists; split; reflexivity.
Qed.

(** X2.  When the reader rejects, after any number of chunks, each decoder
    rejects with that failure: the content decoded so far is not
    returned. *)
Theorem decoders_lose_content_on_failure (response : fetch_response) :
  ok response = true ->
  has_body response = true ->
  body_fails response = true ->
  chatCompletionStream JSON_parse response = Throw NetworkError /\
  agentChatStream JSON_parse response = Throw NetworkError /\
  sendStreamingRequest JSON_parse response = Throw NetworkError.
Proof.
  intros Hok Hbody Hfails.
  unfold chatCompletionStream, agentChatStream, sendStreamingRequest.
  rewrite Hok, Hbody, Hfails. simpl. now rewrite !read_loop_fails.
Qed.


(** The command-line decoders let a failing [response.json()] through
    instead, and always name a cause: the upstream's [error] text or
    "API request failed". *)
Theorem cli_refusal_error (response : fetch_response) :
  ok response = false ->
  agentChatStream JSON_parse response = chatCompletionStream JSON_parse response /\
  (forall failure, response_json response = Throw failure ->
     chatCompletionStream JSON_parse response = Throw failure) /\
  (forall answer, response_json response = Normal (JObj answer) ->
     chatCompletionStream JSON_parse response =
     Throw (ApiError (Some (if truthy (assoc "error" answer)
                            then default JNull (assoc "error" answer)
                            else JStr "API request failed")))).
Proof.
  intros Hok. unfold agentChatStream, chatCompletionStream, api_failure.
  rewrite Hok. simpl. repeat split.
  - now intros failure ->.
  - intros answer ->. simpl. unfold js_or.
    destruct (assoc "error" answer) as [v|] eqn:E; [|reflexivity].
    now destruct (truthy (Some v)).
Qed.

End DecoderRuns.

Section DecoderInvariants.

Variable JSON_parse : string -> completion json.

(** ** Lines that are no records *)

(** X4.  A line that does not start with ["data: "] (a blank line, a comment,
    an [event:] line, [data:] without the space) leaves every decoder's
    state as it was and does not end the loop over the chunk's lines. *)
Theorem line_without_prefix_ignored (line : string) (before after : list string) :
  data_of line = None ->
  (forall st, regular_lines JSON_parse (before ++ line :: after) st
              = regular_lines JSON_parse (before ++ after) st) /\
  (forall st, agent_lines JSON_parse (before ++ line :: after) st
              = agent_lines JSON_parse (before ++ after) st) /\
  (forall st, hook_lines JSON_parse (before ++ line :: after) st
              = hook_lines JSON_parse (before ++ after) st).
Proof.
  intros Hline. repeat split.
  - induction before as [|l before IH]; intros st; cbn [app regular_lines].
    + now rewrite Hline.
    + destruct (data_of l) as [d|]; [destruct (d =? "[DONE]")|]; auto.
  - induction before as [|l before IH]; intros st; cbn [app agent_lines].
    + now rewrite Hline.
    + destruct (data_of l) as [d|]; [destruct (d =? "[DONE]")|]; auto.
  - induction before as [|l before IH]; intros st; cbn [app hook_lines].
    + now rewrite Hline.
    + destruct (data_of l) as [d|]; [destruct (d =? "[DONE]")|]; auto.
Qed.

(** ** What is printed *)

Lemma strings_of_app (a b : list json) :
  strings_of (a ++ b) = strings_of a ++ strings_of b.
Proof.
  induction a as [|v a IH]; [reflexivity|].
  destruct v; simpl; now rewrite IH.
Qed.

Lemma write_keeps_step (content : jsval) (st : cli_state) :
  truthy content = true ->
  printed_in_step st ->
  printed_in_step
    (fst match append_content content st with
         | Normal appended => stdout_write content appended
         | Throw e => (st, Throw e)
         end).
Proof.
  unfold printed_in_step, append_content. intros Ht Hst.
  destruct content as [c|]; [|discriminate].
  destruct (converts c); [|exact Hst].
  destruct c; simpl in *; try discriminate;
    rewrite strings_of_app, <- Hst; simpl; now rewrite ?app_nil_r.
Qed.

Lemma regular_try_keeps_step (data : string) (st : cli_state) :
  printed_in_step st -> printed_in_step (try_catch (regular_try JSON_parse data) st).
Proof.
  intros Hst. unfold try_catch, regular_try.
  destruct (JSON_parse data) as [parsed|]; [|exact Hst].
  destruct (regular_content parsed) as [content|]; [|exact Hst].
  destruct (truthy content) eqn:Ht; [|exact Hst]. now apply write_keeps_step.
Qed.

Lemma agent_try_keeps_step (data : string) (st : cli_state) :
  printed_in_step st -> printed_in_step (try_catch (agent_try JSON_parse data) st).
Proof.
  intros Hst. unfold try_catch, agent_try.
  destruct (JSON_parse data) as [parsed|]; [|exact Hst].
  destruct (agent_content parsed) as [content|]; [|exact Hst].
  destruct (truthy content) eqn:Ht; [|exact Hst]. now apply write_keeps_step.
Qed.

Lemma regular_lines_keep_step (lines : list string) (st : cli_state) :
  printed_in_step st -> printed_in_step (regular_lines JSON_parse lines st).
Proof.
  revert st. induction lines as [|l lines IH]; intros st Hst; [exact Hst|].
  simpl. destruct (data_of l) as [d|]; [destruct (d =? "[DONE]")|]; auto.
  apply IH. now apply regular_try_keeps_step.
Qed.

Lemma agent_lines_keep_step (lines : list string) (st : cli_state) :
  printed_in_step st -> printed_in_step (agent_lines JSON_parse lines st).
Proof.
  revert st. induction lines as [|l lines IH]; intros st Hst; [exact Hst|].
  simpl. destruct (data_of l) as [d|]; [destruct (d =? "[DONE]")|]; auto.
  apply IH. now apply agent_try_keeps_step.
Qed.

Lemma fold_keeps {S : Type} (P : S -> Prop) (f : string -> S -> S) :
  (forall c st, P st -> P (f c st)) ->
  forall chunks st, P st -> P (fold_left (fun s c => f c s) chunks st).
Proof.
  intros Hf chunks. induction chunks as [|c cs IH]; intros st Hst; [exact Hst|].
  simpl. apply IH. now apply Hf.
Qed.

(** X5.  On a response that is [ok] and has a body, what
    [chatCompletionStream] and [agentChatStream] print is what they
    return: the deltas that are strings, in order, each written once, and
    the closing newline of [console.log()]; a delta that is no string but
    has a string conversion (a number, say) is appended to the returned
    content and never printed, and one whose conversion throws is neither
    appended nor printed. *)
Theorem printed_is_returned_text (response : fetch_response) :
  ok response = true ->
  has_body response = true ->
  body_fails response = false ->
  (exists run, chatCompletionStream JSON_parse response = Normal run /\
               printed run = strings_of (returned run) ++ [String LF ""]) /\
  (exists run, agentChatStream JSON_parse response = Normal run /\
               printed run = strings_of (returned run) ++ [String LF ""]).
Proof.
  intros Hok Hbody Hfails. unfold chatCompletionStream, agentChatStream.
  rewrite Hok, Hbody, Hfails. simpl. rewrite !read_loop_done. simpl.
  split; eexists; (split; [reflexivity|]); unfold cli_finish; simpl; f_equal.
  - apply (fold_keeps printed_in_step (regular_chunk JSON_parse)); [|reflexivity].
    intros c st. apply regular_lines_keep_step.
  - apply (fold_keeps printed_in_step (agent_chunk JSON_parse)); [|reflexivity].
    intros c st. apply agent_lines_keep_step.
Qed.

(** ** What the hook queues *)

Lemma hook_lines_keep_step (lines : list string) (st : hook_state) :
  queued_in_step st -> queued_in_step (hook_lines JSON_parse lines st).
Proof.
  revert st. induction lines as [|l lines IH]; intros st Hst; [exact Hst|].
  simpl. destruct (data_of l) as [d|]; [destruct (d =? "[DONE]")|]; auto.
  apply IH. unfold try_catch, hook_try.
  destruct (JSON_parse d) as [parsed|]; [|exact Hst].
  destruct (regular_content parsed) as [content|]; [|exact Hst].
  destruct (truthy content); [|exact Hst].
  destruct content as [c|]; [|exact Hst].
  destruct (converts c); [|exact Hst].
  unfold queued_in_step in *. simpl. rewrite length_app, Hst. simpl. lia.
Qed.

(** X6.  [sendStreamingRequest] hands [setMessages] one updater for each
    delta it appends to the content, and none for a record it skips: on a
    stream that ends without failure the updaters queued are as many as
    the deltas of the message handed to [onMessage]. *)
Theorem hook_queues_one_update_per_delta (response : fetch_response) :
  ok response = true ->
  has_body response = true ->
  body_fails response = false ->
  exists run, sendStreamingRequest JSON_parse response = Normal run /\
              updates run = length (final_message run).
Proof.
  intros Hok Hbody Hfails. unfold sendStreamingRequest.
  rewrite Hok, Hbody, Hfails. simpl. rewrite read_loop_done. simpl.
  eexists. split; [reflexivity|]. simpl.
  apply (fold_keeps queued_in_step (hook_chunk JSON_parse)); [|reflexivity].
  intros c st. apply hook_lines_keep_step.
Qed.

End DecoderInvariants.

Section DecoderAgreement.

Variable JSON_parse : string -> completion json.

(** ** The decoders against each other *)

Lemma written_content (c : json) (st : cli_state) :
  fullContent (fst (stdout_write (Some c)
                      {| fullContent := fullContent st ++ [c]; stdout := stdout st |}))
  = fullContent st ++ [c].
Proof. now destruct c. Qed.

Lemma hook_follows_regular (lines : list string) (st : cli_state) (hst : hook_state) :
  existsb is_sentinel lines = false ->
  hook_content hst = fullContent st ->
  hook_content (hook_lines JSON_parse lines hst)
  = fullContent (regular_lines JSON_parse lines st).
Proof.
  revert st hst. induction lines as [|l lines IH]; intros st hst Hs Hst; [exact Hst|].
  simpl in Hs. apply orb_false_elim in Hs as [Hl Hs]. unfold is_sentinel in Hl. simpl.
  destruct (data_of l) as [d|]; [|now apply IH].
  rewrite Hl. apply IH; [exact Hs|].
  unfold try_catch, regular_try, hook_try.
  destruct (JSON_parse d) as [parsed|]; [|exact Hst].
  destruct (regular_content parsed) as [content|]; [|exact Hst].
  destruct (truthy content) eqn:Ht; [|exact Hst].
  destruct content as [c|]; [|discriminate].
  unfold append_content. destruct (converts c); [|exact Hst].
  rewrite written_content. simpl. now rewrite Hst.
Qed.

(** X7.  On a stream none of whose lines is the end sentinel, the hook and the
    command-line decoder extract the same deltas: the final assistant
    message of [sendStreamingRequest] is the content that
    [chatCompletionStream] returns. *)
Theorem hook_agrees_without_sentinel (response : fetch_response) :
  ok response = true ->
  has_body response = true ->
  body_fails response = false ->
  Forall (fun chunk => has_sentinel chunk = false) (body response) ->
  exists run shown_run,
    chatCompletionStream JSON_parse response = Normal run /\
    sendStreamingRequest JSON_parse response = Normal shown_run /\
    final_message shown_run = returned run.
Proof.
  intros Hok Hbody Hfails Hs. unfold chatCompletionStream, sendStreamingRequest.
  rewrite Hok, Hbody, Hfails. simpl. rewrite !read_loop_done. simpl.
  eexists _, _. split; [reflexivity|]. split; [reflexivity|]. simpl.
  assert (H0 : forall (st : cli_state) (hst : hook_state),
             hook_content hst = fullContent st ->
             hook_content (fold_left (fun h c => hook_chunk JSON_parse c h) (body response) hst)
             = fullContent (fold_left (fun s c => regular_chunk JSON_parse c s) (body response) st)).
  { induction Hs as [|c cs Hc _ IH]; intros st hst Hst; [exact Hst|].
    simpl. apply IH. now apply hook_follows_regular. }
  now apply H0.
Qed.

Lemma emit_same (a b : jsval) :
  emit a = emit b ->
  truthy a = truthy b /\ (truthy a = true -> a = b).
Proof.
  destruct a as [x|], b as [y|]; unfold emit.
  - destruct (truthy (Some x)), (truthy (Some y)); intros [=]; subst; auto.
    split; [reflexivity|discriminate].
  - destruct (truthy (Some x)); intros [=]. split; [reflexivity|discriminate].
  - destruct (truthy (Some y)); intros [=]. split; [reflexivity|discriminate].
  - split; [reflexivity|discriminate].
Qed.

(** A payload is flat when its nested field path adds nothing to its
    top-level [content]. *)
Lemma flat_emit (parsed : json) :
  truthy (top_content parsed) = true \/ truthy (nested_content parsed) = false ->
  emit (first_content parsed) = emit (top_content parsed).
Proof.
  unfold first_content. intros [Ht|Hn].
  - now rewrite Ht.
  - destruct (truthy (top_content parsed)) eqn:Ht; [reflexivity|].
    now rewrite !emit_truthy.
Qed.

Lemma try_agree (data : string) (st : cli_state) :
  (forall parsed, JSON_parse data = Normal parsed ->
     truthy (top_content parsed) = true \/ truthy (nested_content parsed) = false) ->
  try_catch (agent_try JSON_parse data) st = try_catch (regular_try JSON_parse data) st.
Proof.
  intros Hflat. unfold try_catch, agent_try, regular_try.
  destruct (JSON_parse data) as [parsed|] eqn:Hp; [|reflexivity].
  destruct (null_or_not parsed) as [->|Hnn]; [reflexivity|].
  destruct (regular_content_first parsed Hnn) as (c1 & -> & E1).
  destruct (agent_content_top parsed Hnn) as (c2 & -> & E2).
  assert (E : emit c2 = emit c1) by (rewrite E1, E2; symmetry; apply flat_emit; auto).
  apply emit_same in E as [Ht Heq]. rewrite <- Ht.
  destruct (truthy c2) eqn:Hc; [|reflexivity]. now rewrite (Heq eq_refl).
Qed.

(** X8.  On a stream whose records are all flat (a truthy top-level [content],
    or no content under [choices[0].delta] either), [agentChatStream]
    behaves as [chatCompletionStream] does: same result, same output, same
    reads. *)
Theorem agent_agrees_on_flat_records (response : fetch_response) :
  (forall chunk line data parsed,
      In chunk (body response) -> In line (split chunk) ->
      data_of line = Some data -> JSON_parse data = Normal parsed ->
      truthy (top_content parsed) = true \/ truthy (nested_content parsed) = false) ->
  agentChatStream JSON_parse response = chatCompletionStream JSON_parse response.
Proof.
  intros Hflat. unfold agentChatStream, chatCompletionStream.
  destruct (negb (ok response)); [reflexivity|].
  assert (Hlines : forall lines st,
             (forall line data parsed, In line lines -> data_of line = Some data ->
                JSON_parse data = Normal parsed ->
                truthy (top_content parsed) = true \/ truthy (nested_content parsed) = false) ->
             agent_lines JSON_parse lines st = regular_lines JSON_parse lines st).
  { induction lines as [|l lines IH]; intros st Hl; [reflexivity|]. simpl.
    destruct (data_of l) as [d|] eqn:Hd.
    - destruct (d =? "[DONE]"); [reflexivity|].
      rewrite try_agree by (intros p Hp; eapply (Hl l d p); [now left|exact Hd|exact Hp]).
      apply IH. intros l' d' p' Hin. apply Hl. now right.
    - apply IH. intros l' d' p' Hin. apply Hl. now right. }
  assert (Hloop : forall chunks fails st n,
             (forall c, In c chunks -> In c (body response)) ->
             read_loop (agent_chunk JSON_parse) chunks fails st n
             = read_loop (regular_chunk JSON_parse) chunks fails st n).
  { induction chunks as [|c cs IH]; intros fails st n Hin; [reflexivity|]. simpl.
    assert (Hc : agent_chunk JSON_parse c st = regular_chunk JSON_parse c st).
    { apply Hlines. intros l d p Hl. apply (Hflat c); [apply Hin; now left|exact Hl]. }
    rewrite Hc. apply IH. intros c' Hc'. apply Hin. now right. }
  now rewrite Hloop.
Qed.

End DecoderAgreement.

(* ================================================================== *)
(** * Further properties of the Express server *)
(* ================================================================== *)

Section ServerFacts.

Variable RORAOS_API_KEY : string.
Variable upstream : upstream_call -> axios_outcome.

Abbreviation chat := (post_api_chat RORAOS_API_KEY upstream).
Abbreviation chat_stream := (post_api_chat_stream RORAOS_API_KEY upstream).

(** ** The credential on the upstream call *)

Lemma startsWith_slice (s p : string) :
  startsWith s p = true -> (p ++ slice (String.length p) s)%string = s.
Proof.
  revert s. induction p as [|a p IH]; intros s H; [reflexivity|].
  destruct s as [|b s]; [discriminate|]. simpl in H.
  apply andb_prop in H as [Hab Hp]. apply Ascii.eqb_eq in Hab as ->.
  simpl. now rewrite IH.
Qed.

(** X9.  A client's bearer header reaches the upstream as it came: when the
    request has no [x-api-key] value and its [Authorization] value starts
    with ["Bearer "], the upstream call carries that very value; an
    [x-api-key] value without the prefix is sent behind ["Bearer "]; and
    the process-wide key is sent only when neither header has a value. *)
Theorem credential_forwarded (req : request) (stream : bool) :
  (forall h, header_truthy (headers req !! "x-api-key") = false ->
             headers req !! "authorization" = Some h ->
             startsWith h "Bearer " = true ->
             authorization (chat_call RORAOS_API_KEY req stream) = h) /\
  (forall k, headers req !! "x-api-key" = Some k -> k <> "" ->
             startsWith k "Bearer " = false ->
             authorization (chat_call RORAOS_API_KEY req stream) = ("Bearer " ++ k)%string) /\
  (header_truthy (headers req !! "x-api-key") = false ->
   header_truthy (headers req !! "authorization") = false ->
   authorization (chat_call RORAOS_API_KEY req stream) = ("Bearer " ++ RORAOS_API_KEY)%string).
Proof.
  unfold chat_call. cbn [authorization]. repeat split.
  - intros h Hx Ha Hb.
    assert (Hh : h <> "") by (intros ->; discriminate Hb).
    rewrite (getApiKey_chosen RORAOS_API_KEY req h).
    + unfold bearer_token. rewrite Hb. apply (startsWith_slice h "Bearer " Hb).
    + unfold header_or. now rewrite Hx.
    + exact Hh.
  - intros k Hk Hne Hb. f_equal.
    rewrite (getApiKey_chosen RORAOS_API_KEY req k).
    + unfold bearer_token. now rewrite Hb.
    + unfold header_or. now rewrite Hk, (header_truthy_value k Hne).
    + exact Hne.
  - intros Hx Ha. f_equal. unfold getApiKey, header_or. rewrite Hx.
    destruct (headers req !! "authorization") as [a|]; [|reflexivity].
    now rewrite Ha.
Qed.

(** X10.  The upstream call is built from four properties of the body and two
    headers: requests that agree on [messages], [model], [temperature],
    [max_tokens], [x-api-key] and [authorization] produce the same call,
    whatever else they carry; a [stream] property in the body in
    particular changes nothing. *)
Theorem upstream_call_depends_on (req req' : request) (stream : bool) :
  (forall name, In name ["messages"; "model"; "temperature"; "max_tokens"] ->
                assoc name (req_body req) = assoc name (req_body req')) ->
  (forall name, In name ["x-api-key"; "authorization"] ->
                headers req !! name = headers req' !! name) ->
  chat_call RORAOS_API_KEY req stream = chat_call RORAOS_API_KEY req' stream.
Proof.
  intros Hb Hh. unfold chat_call, getApiKey.
  rewrite (Hb "messages"), (Hb "model"), (Hb "temperature"), (Hb "max_tokens")
    by (simpl; auto).
  rewrite (Hh "x-api-key"), (Hh "authorization") by (simpl; auto).
  reflexivity.
Qed.

(** ** How the buffered handler answers *)

(** X11.  [POST /api/chat] maps failures as follows: an upstream refusal keeps
    the upstream's status code, with the upstream's [error] value when it
    is truthy and "API request failed" otherwise; a failure without a
    response (network, timeout) and a success whose body has no
    [choices[0].message] both give 500 "Internal server error". *)
Theorem buffered_error_mapping (req : request) :
  invalid_messages (assoc "messages" (req_body req)) = false ->
  (forall code data e,
      upstream (chat_call RORAOS_API_KEY req false) = Rejected (Some (code, data)) ->
      data_prop data "error" = Normal e ->
      sent (chat req) =
        [Status code;
         Json (JObj [("error", if truthy e then default JNull e
                               else JStr "API request failed")])]) /\
  (upstream (chat_call RORAOS_API_KEY req false) = Rejected None ->
   sent (chat req) = internal_error) /\
  (forall data failure,
      upstream (chat_call RORAOS_API_KEY req false) = Fulfilled data ->
      first_choice_content data = Throw failure ->
      sent (chat req) = internal_error).
Proof.
  intros Hvalid. unfold post_api_chat.
  rewrite (valid_has_body _ Hvalid), Hvalid. repeat split.
  - intros code data e -> ->. simpl. unfold js_or.
    destruct e as [v|]; [|reflexivity]. now destruct (truthy (Some v)).
  - now intros ->.
  - now intros data failure -> ->.
Qed.

(** X12.  [POST /api/chat] answers every request with one JSON body, preceded by
    at most one status, and nothing else, except in one case: when the
    upstream refuses with a body that is [null] or missing, the read of
    [error.response.data.error] throws inside the [catch] block after
    [res.status] has set the upstream's code: the handler sends no body
    and its promise rejects. *)
Theorem buffered_answers_once (req : request) :
  ((rejected (chat req) = false /\
    exists pre payload,
      sent (chat req) = pre ++ [Json payload] /\
      (pre = [] \/ exists code, pre = [Status code]))
   \/
   (rejected (chat req) = true /\
    exists code data,
      sent (chat req) = [Status code] /\
      upstream (chat_call RORAOS_API_KEY req false) = Rejected (Some (code, Parsed data)) /\
      nullish data = true)) /\
  (forall code data,
      invalid_messages (assoc "messages" (req_body req)) = false ->
      upstream (chat_call RORAOS_API_KEY req false) = Rejected (Some (code, Parsed data)) ->
      nullish data = true ->
      rejected (chat req) = true /\ sent (chat req) = [Status code]).
Proof.
  split.
  2:{ intros code data Hvalid Hup Hnull. unfold post_api_chat.
      rewrite (valid_has_body _ Hvalid), Hvalid, Hup.
      destruct data as [[]|]; try discriminate Hnull; split; reflexivity. }
  unfold post_api_chat.
  destruct (nullish (json_body req)).
  { left. split; [reflexivity|]. exists [Status 500%Z]. eexists. split; [reflexivity|eauto]. }
  destruct (invalid_messages _).
  { left. split; [reflexivity|]. exists [Status 400%Z]. eexists. split; [reflexivity|eauto]. }
  destruct (upstream _) as [data|[[code data]|]] eqn:Hup.
  - left. destruct (first_choice_content data).
    + split; [reflexivity|]. exists []. eexists. split; [reflexivity|auto].
    + split; [reflexivity|]. exists [Status 500%Z]. eexists. split; [reflexivity|eauto].
  - destruct (data_prop data "error") as [e|] eqn:He.
    + left. split; [reflexivity|]. exists [Status code]. eexists. split; [reflexivity|eauto].
    + right. split; [reflexivity|].
      destruct data as [d|]; [|discriminate He].
      exists code, d. split; [reflexivity|]. split; [reflexivity|]. now destruct d as [[]|].
  - left. split; [reflexivity|]. exists [Status 500%Z]. eexists. split; [reflexivity|eauto].
Qed.

(** X13.  The reply of a successful buffered call names a model: the upstream's
    when it reports a truthy one, else the one the request asked for, else
    "gpt-4o"; it carries [usage] exactly when the upstream's body does. *)
Theorem buffered_reply_fields (req : request) (answer : list (string * json)) (content : jsval) :
  invalid_messages (assoc "messages" (req_body req)) = false ->
  upstream (chat_call RORAOS_API_KEY req false) = Fulfilled (Parsed (Some (JObj answer))) ->
  first_choice_content (Parsed (Some (JObj answer))) = Normal content ->
  exists fields,
    sent (chat req) = [Json (JObj fields)] /\
    upstream_calls (chat req) = [chat_call RORAOS_API_KEY req false] /\
    (forall v, content = Some v -> assoc "content" fields = Some v) /\
    assoc "usage" fields = assoc "usage" answer /\
    (truthy (assoc "model" answer) = true -> assoc "model" fields = assoc "model" answer) /\
    (truthy (assoc "model" answer) = false ->
     assoc "model" fields = match assoc "model" (req_body req) with
                            | Some m => Some m
                            | None => Some (JStr "gpt-4o")
                            end).
Proof.
  intros Hvalid Hup Hc. unfold post_api_chat.
  rewrite (valid_has_body _ Hvalid), Hvalid, Hup, Hc. simpl.
  eexists. split; [reflexivity|]. split; [reflexivity|].
  unfold js_or, with_default.
  destruct content as [c|]; destruct (assoc "model" answer) as [m|] eqn:Hm;
    destruct (assoc "usage" answer) as [u|] eqn:Hu;
    destruct (assoc "model" (req_body req)) as [rm|] eqn:Hrm;
    try destruct (truthy (Some m)) eqn:Htm; simpl;
    repeat split; try reflexivity; try discriminate; try congruence.
Qed.

(** ** How the streaming handler answers *)

Lemma writes_do_not_finish (chunks : list string) :
  forallb (fun ev => negb (finishes ev)) (map Write chunks) = true.
Proof. induction chunks as [|c cs IH]; [reflexivity|exact IH]. Qed.

(** X14.  [POST /api/chat/stream] finishes the response once, as the last thing
    it does, for every request and every upstream behaviour: a 400 or 500
    JSON body, or [res.end()] after the chunks; nothing is written after
    the response is finished.  A failure before the stream (a refusal, no
    response, a body that is no stream) gives the 500 body after the
    event-stream headers have been set. *)
Theorem stream_finishes_once (req : request) :
  (exists pre last,
      sent (chat_stream req) = pre ++ [last] /\
      finishes last = true /\
      forallb (fun ev => negb (finishes ev)) pre = true) /\
  (invalid_messages (assoc "messages" (req_body req)) = false ->
   (forall chunks ending,
       upstream (chat_call RORAOS_API_KEY req true) <> Fulfilled (Stream chunks ending)) ->
   sent (chat_stream req) = sse_headers ++ internal_error).
Proof.
  unfold post_api_chat_stream. split.
  - destruct (nullish (json_body req)).
    { exists [Status 500%Z]. eexists. split; [reflexivity|]. split; reflexivity. }
    destruct (invalid_messages _).
    { exists [Status 400%Z]. eexists. split; [reflexivity|]. split; reflexivity. }
    destruct (upstream _) as [[data|chunks ending]|response]; simpl sent.
    + exists (sse_headers ++ [Status 500%Z]). eexists. split; [reflexivity|]. split; reflexivity.
    + rewrite pipe_whole. exists (sse_headers ++ map Write chunks), End.
      rewrite <- app_assoc. split; [reflexivity|]. split; [reflexivity|].
      rewrite forallb_app, writes_do_not_finish. reflexivity.
    + exists (sse_headers ++ [Status 500%Z]). eexists. split; [reflexivity|]. split; reflexivity.
  - intros Hvalid Hno. rewrite (valid_has_body _ Hvalid), Hvalid.
    destruct (upstream _) as [[data|chunks ending]|response] eqn:Hup;
      simpl sent; try reflexivity.
    now destruct (Hno chunks ending).
Qed.

End ServerFacts.

(** ** The utility endpoints *)

Section UtilityFacts.

Variable RORAOS_API_KEY : string.
Variable upstream : upstream_call -> axios_outcome.
Variable ToString : json -> completion string.
Variable inherited_text : string -> option string.

Abbreviation summarize := (post_api_summarize RORAOS_API_KEY upstream).
Abbreviation translate :=
  (post_api_translate RORAOS_API_KEY upstream ToString inherited_text).
Abbreviation generate := (post_api_code_generate RORAOS_API_KEY upstream ToString).

Lemma relay_utility_answers (call : upstream_call)
    (reply : jsval -> list (string * jsval)) (failure : string) :
  answered_once (relay_utility upstream call reply failure).
Proof.
  unfold relay_utility, answered_once.
  destruct (upstream call) as [data|response]; [destruct (first_choice_content data)|];
    simpl; (split; [reflexivity|]); (split; [lia|]).
  - exists []. eexists. split; [reflexivity|auto].
  - exists [Status 500%Z]. eexists. split; [reflexivity|auto].
  - exists [Status 500%Z]. eexists. split; [reflexivity|auto].
Qed.

Lemma truthy_has_body (name : string) (req : request) :
  truthy (assoc name (req_body req)) = true -> nullish (json_body req) = false.
Proof.
  unfold req_body. intros H.
  destruct (json_body req) as [[]|]; try reflexivity; discriminate.
Qed.

Lemma required_answers (message : string) :
  answered_once {| sent := required message; upstream_calls := []; rejected := false |}.
Proof.
  unfold answered_once. simpl. split; [reflexivity|]. split; [lia|].
  exists [Status 400%Z]. eexists. split; [reflexivity|auto].
Qed.

Lemma failed_answers (message : string) :
  answered_once {| sent := failed message; upstream_calls := []; rejected := false |}.
Proof.
  unfold answered_once. simpl. split; [reflexivity|]. split; [lia|].
  exists [Status 500%Z]. eexists. split; [reflexivity|auto].
Qed.

(** X15.  Each utility endpoint answers every request, for every upstream
    behaviour, with one JSON body under status 200, 400 or 500, after at
    most one upstream call; unlike [POST /api/chat] none of them can fail
    inside its [catch] block. *)
Theorem utility_answers_once (req : request) :
  answered_once (summarize req) /\
  answered_once (translate req) /\
  answered_once (generate req).
Proof.
  unfold post_api_summarize, post_api_translate, post_api_code_generate. cbv zeta.
  split; [|split]; (destruct (nullish _); [apply failed_answers|]).
  - destruct (negb _); [apply required_answers|apply relay_utility_answers].
  - destruct (negb _); [apply required_answers|].
    match goal with |- context [targetLang ?a ?b ?c] => destruct (targetLang a b c) end; [apply relay_utility_answers|apply failed_answers].
  - destruct (negb _); [apply required_answers|].
    match goal with |- context [text_of ?a ?b] => destruct (text_of a b) end; [apply relay_utility_answers|apply failed_answers].
Qed.

(** X16.  A request whose body lacks its text ([text], or [prompt] for code
    generation: absent, empty, [null], [0] or [false]) is answered 400
    with the endpoint's message, and the upstream is not called; a request
    that left [req.body] undefined fails in the destructuring and is
    answered 500 with the endpoint's failure message, without an upstream
    call either. *)
Theorem utility_requires_text (req : request) :
  (nullish (json_body req) = false ->
   (truthy (assoc "text" (req_body req)) = false ->
    summarize req = {| sent := [Status 400; Json (JObj [("error", JStr "text is required")])];
                       upstream_calls := []; rejected := false |} /\
    translate req = {| sent := [Status 400; Json (JObj [("error", JStr "text is required")])];
                       upstream_calls := []; rejected := false |}) /\
   (truthy (assoc "prompt" (req_body req)) = false ->
    generate req = {| sent := [Status 400; Json (JObj [("error", JStr "prompt is required")])];
                      upstream_calls := []; rejected := false |})) /\
  (nullish (json_body req) = true ->
   summarize req = {| sent := [Status 500; Json (JObj [("error", JStr "Failed to summarize")])];
                      upstream_calls := []; rejected := false |} /\
   translate req = {| sent := [Status 500; Json (JObj [("error", JStr "Failed to translate")])];
                      upstream_calls := []; rejected := false |} /\
   generate req = {| sent := [Status 500;
                              Json (JObj [("error", JStr "Failed to generate code")])];
                     upstream_calls := []; rejected := false |}).
Proof.
  unfold post_api_summarize, post_api_translate, post_api_code_generate.
  split; intros ->.
  - split; [intros ->; split; reflexivity|intros ->; reflexivity].
  - split; [|split]; reflexivity.
Qed.

(** X17.  When the upstream refuses, whatever its status code and body, the
    utility endpoints answer 500 with a text of their own: the upstream's
    status and reason never reach the client. *)
Theorem utility_refusals_become_500 (req : request) :
  (forall call, exists response, upstream call = Rejected response) ->
  (truthy (assoc "text" (req_body req)) = true ->
   sent (summarize req) = [Status 500; Json (JObj [("error", JStr "Failed to summarize")])] /\
   sent (translate req) = [Status 500; Json (JObj [("error", JStr "Failed to translate")])]) /\
  (truthy (assoc "prompt" (req_body req)) = true ->
   sent (generate req) = [Status 500; Json (JObj [("error", JStr "Failed to generate code")])]).
Proof.
  intros Hup.
  assert (Hrelay : forall call reply failure,
             sent (relay_utility upstream call reply failure) = failed failure).
  { intros call reply failure. unfold relay_utility.
    destruct (Hup call) as [response ->]. reflexivity. }
  unfold post_api_summarize, post_api_translate, post_api_code_generate. cbv zeta.
  split; intros Ht; rewrite (truthy_has_body _ _ Ht), Ht; [split|]; simpl negb; cbv iota.
  - apply Hrelay.
  - match goal with |- context [targetLang ?a ?b ?c] => destruct (targetLang a b c) end; [apply Hrelay|reflexivity].
  - match goal with |- context [text_of ?a ?b] => destruct (text_of a b) end; [apply Hrelay|reflexivity].
Qed.

(** X18.  [POST /api/summarize] asks for an Indonesian summary exactly when
    [language] is the string "id"; any other value ("ID", "ja", a number,
    none) gives an English one.  The user message carries the text as it
    came, and the call names "gpt-4o" whatever the request says. *)
Theorem summarize_language (req : request) :
  truthy (assoc "text" (req_body req)) = true ->
  exists call,
    upstream_calls (summarize req) = [call] /\
    message_content call 1 = assoc "text" (req_body req) /\
    (exists fields, payload call = JObj fields /\ assoc "model" fields = Some (JStr "gpt-4o")) /\
    (assoc "language" (req_body req) = Some (JStr "id") ->
     message_content call 0
     = Some (JStr "Summarize the following text concisely in Indonesian.")) /\
    (assoc "language" (req_body req) <> Some (JStr "id") ->
     message_content call 0
     = Some (JStr "Summarize the following text concisely in English.")).
Proof.
  intros Ht. unfold post_api_summarize.
  rewrite (truthy_has_body _ _ Ht), Ht. simpl negb. cbv iota.
  eexists. split.
  { unfold relay_utility.
    destruct (upstream _) as [data|response]; [destruct (first_choice_content data)|];
      reflexivity. }
  destruct (assoc "text" (req_body req)) as [text|] eqn:Htext; [|discriminate Ht].
  split; [reflexivity|]. split; [eexists; split; reflexivity|]. split.
  - intros ->. reflexivity.
  - intros Hne. destruct (assoc "language" (req_body req)) as [lang|]; [|reflexivity].
    simpl with_default. cbv beta iota.
    destruct lang as [| | |s| |]; try reflexivity.
    destruct (String.eqb_spec s "id") as [->|Hs]; [now destruct Hne|].
    assert (E : match s with
                | "id" => "Indonesian"
                | _ => "English"
                end = "English").
    { clear -Hs. repeat (match goal with
                         | |- context [match ?x with _ => _ end] => destruct x
                         end; try reflexivity). now destruct Hs. }
    unfold message_content. simpl. now rewrite E.
Qed.

End UtilityFacts.

Section TranslateFacts.

Variable RORAOS_API_KEY : string.
Variable upstream : upstream_call -> axios_outcome.
Variable ToString : json -> completion string.
Variable inherited_text : string -> option string.

Abbreviation translate' :=
  (post_api_translate RORAOS_API_KEY upstream ToString inherited_text).

Lemma relay_utility_calls (call : upstream_call)
    (reply : jsval -> list (string * jsval)) (failure : string) :
  upstream_calls (relay_utility upstream call reply failure) = [call].
Proof.
  unfold relay_utility.
  destruct (upstream call) as [data|response]; [destruct (first_choice_content data)|];
    reflexivity.
Qed.

Lemma languageNames_named (code name : string) :
  lookup_name code languageNames = Some name -> (name =? "") = false.
Proof.
  unfold languageNames, lookup_name.
  repeat (destruct (_ =? code); [intros [= <-]; reflexivity|]). discriminate.
Qed.

(** X19.  [POST /api/translate] names the target language in its prompt: for a
    [to] that is a string (an absent [to] counts as "en"), the full name
    when it is one of the eight codes of [languageNames], and the string
    itself otherwise (unless it is a property name of
    [Object.prototype]); the user message carries the text as it came. *)
Theorem translate_target_language (req : request) (code : string) :
  truthy (assoc "text" (req_body req)) = true ->
  with_default (assoc "to" (req_body req)) (JStr "en") = Some (JStr code) ->
  exists call,
    upstream_calls (translate' req) = [call] /\
    message_content call 1 = assoc "text" (req_body req) /\
    (forall name,
        lookup_name code languageNames = Some name ->
        message_content call 0 = Some (JStr (translation_prompt name))) /\
    (lookup_name code languageNames = None ->
     inherited_text code = None ->
     message_content call 0 = Some (JStr (translation_prompt code))).
Proof.
  intros Ht Hto. unfold post_api_translate.
  rewrite (truthy_has_body _ _ Ht), Ht, Hto. simpl negb. cbv iota zeta.
  destruct (assoc "text" (req_body req)) as [text|] eqn:Htext; [|discriminate Ht].
  unfold targetLang. cbn [text_of bind].
  destruct (lookup_name code languageNames) as [name|] eqn:Hname.
  - rewrite (languageNames_named code name Hname).
    eexists. split; [apply relay_utility_calls|]. split; [reflexivity|]. split.
    + now intros name' [= <-].
    + discriminate.
  - destruct (inherited_text code) as [text'|] eqn:Hin;
      (eexists; split; [apply relay_utility_calls|]; split; [reflexivity|]); split;
      try discriminate.
    now intros _ _.
Qed.


End TranslateFacts.

(* ================================================================== *)
(** * Further properties of the command-line clients *)
(* ================================================================== *)

Section ClientFacts.

Variable JSON_parse : string -> completion json.
Variable fetch : fetch_request -> completion fetch_response.

(** X21.  A refused request fails the same way with and without [stream]: when
    the response is not [ok], [chatCompletion] and [agentChat] throw the
    error made from the response's JSON body, whatever the options ask
    for; and a rejected [fetch] is rethrown as it is. *)
Theorem client_refusal_in_both_modes
    (KEY : string) (messages options : jsval) (fields : list (string * json)) :
  destructure options = Normal fields ->
  (forall response,
      fetch (regular_request KEY (chat_payload messages fields)) = Normal response ->
      ok response = false ->
      chatCompletion JSON_parse fetch KEY messages options = raise (api_failure response)) /\
  (forall response,
      fetch (agent_request KEY (agent_payload messages fields)) = Normal response ->
      ok response = false ->
      agentChat JSON_parse fetch KEY messages options = raise (api_failure response)) /\
  (forall e,
      fetch (regular_request KEY (chat_payload messages fields)) = Throw e ->
      chatCompletion JSON_parse fetch KEY messages options = Throw e) /\
  (forall e,
      fetch (agent_request KEY (agent_payload messages fields)) = Throw e ->
      agentChat JSON_parse fetch KEY messages options = Throw e).
Proof.
  intros Hopt. unfold chatCompletion, agentChat. rewrite Hopt. cbn [bind].
  repeat split.
  - intros response -> Hok. cbn [bind].
    unfold chatCompletionStream. rewrite Hok. simpl.
    destruct (truthy _); [|reflexivity].
    now destruct (api_failure response).
  - intros response -> Hok. cbn [bind].
    unfold agentChatStream. rewrite Hok. simpl.
    destruct (truthy _); [|reflexivity].
    now destruct (api_failure response).
  - now intros e ->.
  - now intros e ->.
Qed.

(** X22.  What the two entry points send: [chatCompletion] always names the
    model "gpt-4o", whatever the options hold, and fills in the defaults
    0.7 and 2000; [agentChat] never names a model and sends [temperature]
    and [max_tokens] exactly when the options define them, [null]
    included. *)
Theorem client_payloads (messages : jsval) (fields : list (string * json)) :
  (exists sent_fields,
      chat_payload messages fields = JObj sent_fields /\
      assoc "model" sent_fields = Some (JStr "gpt-4o") /\
      assoc "temperature" sent_fields
        = Some (default (JNum 7 (-1)) (assoc "temperature" fields)) /\
      assoc "max_tokens" sent_fields
        = Some (default (JNum 2000 0) (assoc "max_tokens" fields)) /\
      assoc "messages" sent_fields = messages) /\
  (exists sent_fields,
      agent_payload messages fields = JObj sent_fields /\
      assoc "model" sent_fields = None /\
      assoc "temperature" sent_fields = assoc "temperature" fields /\
      assoc "max_tokens" sent_fields = assoc "max_tokens" fields /\
      assoc "messages" sent_fields = messages).
Proof.
  unfold chat_payload, agent_payload, with_default. split; eexists; (split; [reflexivity|]).
  - destruct messages, (assoc "stream" fields), (assoc "temperature" fields),
      (assoc "max_tokens" fields); repeat split; reflexivity.
  - destruct messages, (assoc "stream" fields), (assoc "temperature" fields),
      (assoc "max_tokens" fields); repeat split; reflexivity.
Qed.

End ClientFacts.

(* ================================================================== *)
(** * Properties of the [useChat] hook *)
(* ================================================================== *)

Section HookFacts.

Import UseChat.

Variable JSON_parse : string -> completion json.
Variable fetch : api_request -> completion fetch_response.
Variable trim : string -> string.

Abbreviation send := (sendMessage JSON_parse fetch trim).

(** X23.  A blank input (nothing left after [trim]) and an input given while a
    request is under way are dropped: the state stays as it is, no request
    is sent, no callback is made. *)
Theorem sendMessage_blank_or_busy (stream : bool) (text : string) (st : chat_state) :
  trim text = "" \/ isLoading st = true ->
  send stream text st = {| state := st; callbacks := []; requests := [] |}.
Proof.
  intros [Hblank|Hbusy]; unfold sendMessage.
  - now rewrite Hblank.
  - rewrite Hbusy. now rewrite orb_true_r.
Qed.






(** X27.  A failed turn stays in the conversation: after a request that failed
    before any reply, the next accepted input is sent together with the
    earlier input, which never got an answer; [clearMessages] in between
    leaves a request of the system prompt and the new input alone. *)
Theorem failed_turn_is_sent_again
    (stream : bool) (first second : string) (st : chat_state) (e : js_error) :
  trim first <> "" ->
  trim second <> "" ->
  isLoading st = false ->
  (forall request, fetch request = Throw e) ->
  let system := {| role := "system"; content := Value (JStr (systemPrompt st)) |} in
  let user1 := {| role := "user"; content := Value (JStr (trim first)) |} in
  let user2 := {| role := "user"; content := Value (JStr (trim second)) |} in
  requests (send stream second (state (send stream first st)))
    = [{| api_messages := system :: messages st ++ [user1; user2]; api_stream := stream |}] /\
  requests (send stream second (clearMessages (state (send stream first st))))
    = [{| api_messages := [system; user2]; api_stream := stream |}].
Proof.
  intros H1 H2 Hidle Hfetch. cbv zeta.
  assert (Hmap : forall ms : list Message,
             map (fun m => {| role := role m; content := content m |}) ms = ms).
  { induction ms as [|[r c] ms IH]; [reflexivity|]. simpl. now rewrite IH. }
  apply String.eqb_neq in H1, H2.
  assert (Hfirst : state (send stream first st)
                   = {| messages := messages st
                                    ++ [{| role := "user"; content := Value (JStr (trim first)) |}];
                        isLoading := false; error := Some e;
                        systemPrompt := systemPrompt st |}).
  { unfold sendMessage. rewrite H1, Hidle. cbn [orb].
    unfold sendStreamingRequest_effects, sendNormalRequest. rewrite !Hfetch.
    now destruct stream. }
  rewrite Hfirst. unfold sendMessage, clearMessages. cbn [isLoading messages systemPrompt].
  rewrite H2. cbn [orb]. rewrite !Hmap.
  unfold sendStreamingRequest_effects, sendNormalRequest. rewrite !Hfetch.
  destruct stream; cbn [requests]; rewrite <- app_assoc; split; reflexivity.
Qed.

End HookFacts.

(* ================================================================== *)
(** * The further properties at concrete inputs *)
(* ================================================================== *)

Lemma decoders_read_until_done_witness :
  exists run, chatCompletionStream json_parse (streaming_ok example_cut) = Normal run /\
              reads run = 3.
Proof.
  refine (proj1 (decoders_read_until_done json_parse (streaming_ok example_cut) _ _ _));
    reflexivity.
Defined.

Lemma decoders_lose_content_on_failure_witness :
  chatCompletionStream json_parse breaking_response = Throw NetworkError.
Proof.
  refine (proj1 (decoders_lose_content_on_failure json_parse breaking_response _ _ _));
    reflexivity.
Defined.


Lemma line_without_prefix_ignored_witness :
  regular_lines json_parse ([] ++ wire "data:{'content':'x'}" :: example_records) cli_start
  = regular_lines json_parse ([] ++ example_records) cli_start.
Proof.
  refine (proj1 (line_without_prefix_ignored json_parse (wire "data:{'content':'x'}")
                   [] example_records _) cli_start).
  reflexivity.
Defined.

Lemma printed_is_returned_text_witness :
  exists run, chatCompletionStream json_parse (streaming_ok [example_stream]) = Normal run /\
              printed run = strings_of (returned run) ++ [String LF ""].
Proof.
  refine (proj1 (printed_is_returned_text json_parse (streaming_ok [example_stream]) _ _ _));
    reflexivity.
Defined.

Lemma hook_queues_one_update_per_delta_witness :
  exists run, sendStreamingRequest json_parse (streaming_ok [example_stream]) = Normal run /\
              updates run = length (final_message run).
Proof.
  refine (hook_queues_one_update_per_delta json_parse (streaming_ok [example_stream]) _ _ _);
    reflexivity.
Defined.

Lemma hook_agrees_without_sentinel_witness :
  exists run shown_run,
    chatCompletionStream json_parse (streaming_ok open_stream) = Normal run /\
    sendStreamingRequest json_parse (streaming_ok open_stream) = Normal shown_run /\
    final_message shown_run = returned run.
Proof.
  refine (hook_agrees_without_sentinel json_parse (streaming_ok open_stream) _ _ _ _);
    try reflexivity.
  repeat constructor.
Defined.

Lemma agent_agrees_on_flat_records_witness :
  agentChatStream json_parse (streaming_ok [example_stream])
  = chatCompletionStream json_parse (streaming_ok [example_stream]).
Proof.
  refine (agent_agrees_on_flat_records json_parse (streaming_ok [example_stream]) _).
  intros chunk line data parsed [<-|[]] Hline Hdata Hparsed.
  vm_compute in Hline.
  destruct Hline as [<-|[<-|[<-|[<-|[]]]]]; vm_compute in Hdata;
    try discriminate Hdata; injection Hdata as <-;
    vm_compute in Hparsed; try discriminate Hparsed; injection Hparsed as <-;
    left; reflexivity.
Defined.

Lemma upstream_call_depends_on_witness :
  chat_call "dflt" noisy_request true = chat_call "dflt" hello_request true.
Proof.
  refine (upstream_call_depends_on "dflt" noisy_request hello_request true _ _).
  - intros name [<-|[<-|[<-|[<-|[]]]]]; reflexivity.
  - intros name [<-|[<-|[]]]; reflexivity.
Defined.

Lemma buffered_answers_once_witness :
  rejected (post_api_chat "dflt" silent_refusal_upstream hello_request) = true /\
  sent (post_api_chat "dflt" silent_refusal_upstream hello_request) = [Status 429].
Proof.
  exact (proj2 (buffered_answers_once "dflt" silent_refusal_upstream hello_request)
           429%Z None eq_refl eq_refl eq_refl).
Defined.

Lemma buffered_error_mapping_witness :
  sent (post_api_chat "dflt" rate_limited_upstream hello_request)
  = [Status 429; Json (JObj [("error", JStr "rate limited")])].
Proof.
  refine (proj1 (buffered_error_mapping "dflt" rate_limited_upstream hello_request _)
            429%Z _ (Some (JStr "rate limited")) _ _); reflexivity.
Defined.

Lemma buffered_reply_fields_witness :
  exists fields,
    sent (post_api_chat "dflt" hello_upstream hello_request) = [Json (JObj fields)] /\
    assoc "model" fields = Some (JStr "gpt-4o").
Proof.
  destruct (buffered_reply_fields "dflt" hello_upstream hello_request
              [("choices", JArr [JObj [("message", JObj [("role", JStr "assistant");
                                                         ("content", JStr "Hello")])]]);
               ("model", JStr "gpt-4o")]
              (Some (JStr "Hello")) eq_refl eq_refl eq_refl)
    as (fields & Hsent & _ & _ & _ & Hmodel & _).
  exists fields. split; [exact Hsent|]. exact (Hmodel eq_refl).
Defined.

Lemma utility_requires_text_witness :
  post_api_summarize "dflt" hello_upstream {| headers := empty; json_body := Some (JObj []) |}
    = {| sent := [Status 400; Json (JObj [("error", JStr "text is required")])];
         upstream_calls := []; rejected := false |} /\
  post_api_summarize "dflt" hello_upstream {| headers := empty; json_body := None |}
    = {| sent := [Status 500; Json (JObj [("error", JStr "Failed to summarize")])];
         upstream_calls := []; rejected := false |}.
Proof.
  split.
  - exact (proj1 (proj1 (proj1 (utility_requires_text "dflt" hello_upstream fixed_ToString
                                  object_prototype_text
                                  {| headers := empty; json_body := Some (JObj []) |})
                           eq_refl) eq_refl)).
  - exact (proj1 (proj2 (utility_requires_text "dflt" hello_upstream fixed_ToString
                           object_prototype_text
                           {| headers := empty; json_body := None |})
                    eq_refl)).
Defined.

Lemma utility_refusals_become_500_witness :
  sent (post_api_summarize "dflt" rate_limited_upstream summary_request)
  = [Status 500; Json (JObj [("error", JStr "Failed to summarize")])].
Proof.
  refine (proj1 (proj1 (utility_refusals_become_500 "dflt" rate_limited_upstream
                          fixed_ToString object_prototype_text summary_request _) _)).
  - intros call. unfold rate_limited_upstream.
    destruct (responseType_stream call); eexists; reflexivity.
  - reflexivity.
Defined.

Lemma summarize_language_witness :
  exists call,
    upstream_calls (post_api_summarize "dflt" hello_upstream summary_request) = [call] /\
    message_content call 0
    = Some (JStr "Summarize the following text concisely in Indonesian.").
Proof.
  destruct (summarize_language "dflt" hello_upstream summary_request eq_refl)
    as (call & Hcall & _ & _ & Hid & _).
  exists call. split; [exact Hcall|]. exact (Hid eq_refl).
Defined.

Lemma translate_target_language_witness :
  exists call,
    upstream_calls (post_api_translate "dflt" hello_upstream fixed_ToString
                      object_prototype_text (translation_request "id")) = [call] /\
    message_content call 0 = Some (JStr (translation_prompt "Japanese")).
Proof.
  destruct (translate_target_language "dflt" hello_upstream fixed_ToString
              object_prototype_text (translation_request "id") "ja" eq_refl eq_refl)
    as (call & Hcall & _ & Hname & _).
  exists call. split; [exact Hcall|]. exact (Hname "Japanese" eq_refl).
Defined.


Lemma client_refusal_in_both_modes_witness :
  chatCompletion json_parse (fun _ => Normal refused_response) "key"
    (Some (JArr [])) (Some (JObj [("stream", JBool true)]))
  = Throw (ApiError (Some (JStr "rate limited"))).
Proof.
  refine (proj1 (client_refusal_in_both_modes json_parse (fun _ => Normal refused_response)
                   "key" (Some (JArr [])) (Some (JObj [("stream", JBool true)]))
                   [("stream", JBool true)] _) refused_response _ _); reflexivity.
Defined.

Lemma sendMessage_blank_or_busy_witness :
  UseChat.sendMessage json_parse (fun _ => Normal hello_response) trim_ascii false
    "   " (UseChat.initial "You are a helpful AI assistant.")
  = {| UseChat.state := UseChat.initial "You are a helpful AI assistant.";
       UseChat.callbacks := []; UseChat.requests := [] |}.
Proof.
  refine (sendMessage_blank_or_busy json_parse (fun _ => Normal hello_response) trim_ascii
            false "   " (UseChat.initial "You are a helpful AI assistant.") _).
  left. reflexivity.
Defined.




Lemma failed_turn_is_sent_again_witness :
  UseChat.requests
    (UseChat.sendMessage json_parse (fun _ => Throw NetworkError) trim_ascii false "again"
       (UseChat.state
          (UseChat.sendMessage json_parse (fun _ => Throw NetworkError) trim_ascii false
             "first" (UseChat.initial "Be brief."))))
  = [{| UseChat.api_messages :=
          [{| UseChat.role := "system"; UseChat.content := UseChat.Value (JStr "Be brief.") |};
           {| UseChat.role := "user"; UseChat.content := UseChat.Value (JStr "first") |};
           {| UseChat.role := "user"; UseChat.content := UseChat.Value (JStr "again") |}];
        UseChat.api_stream := false |}].
Proof.
  refine (proj1 (failed_turn_is_sent_again json_parse (fun _ => Throw NetworkError)
                   trim_ascii false "first" "again" (UseChat.initial "Be brief.")
                   NetworkError _ _ _ _)).
  - discriminate.
  - discriminate.
  - reflexivity.
  - reflexivity.
Defined.
